(** * AeroCloud Nemo extension: status cache and badge-daemon client

    A shallow embedding of
    [src/shell_integration/linux/nemo/aerocloud_nemo.py]:

    - [AeroCloudStatusCache] ([get], [set]) over a finite map from paths
      to (status, timestamp);
    - [AeroCloudDaemonClient] ([_find_socket_path], [_connect],
      [query_status]) as programs over the calls the code makes to its
      environment (clock, environment variables, filesystem, sockets);
    - [AeroCloudExtension] ([update_file_info], [_apply_emblem]) over a
      record of what it reads from and does to a [Nemo.FileInfo];
    - the string operations the client applies to the daemon's reply
      ([bytes.decode('utf-8', errors='ignore')], [str.splitlines],
      [str.startswith], [str.split(':', 2)]) and to its request
      ([str.encode('utf-8')]).

    Conventions.  A Python [str] is a list of code points, a [bytes]
    object a list of bytes.  [time.time()] readings are rationals, and the
    subtraction of two readings is exact.  The two [Lock]s serialize the
    callers; the embedding is the sequential behaviour of one call at a
    time. *)

From Stdlib Require Import QArith Lqa ZifyN.
From stdpp Require Import gmap list strings pretty.

Open Scope N_scope.

(** ** Python strings and bytes *)

Module PyStr.

(** A [str] is a sequence of code points; lone surrogates (U+D800..U+DFFF)
    can occur in it, as they do in paths decoded with [surrogateescape]. *)
Definition pystr : Type := list N.
Definition bytes : Type := list Byte.byte.

Definition of_ascii (a : Ascii.ascii) : N := Ascii.N_of_ascii a.

(** The code points of a literal of ASCII characters. *)
Fixpoint lit (s : string) : pystr :=
  match s with
  | EmptyString => []
  | String a s' => of_ascii a :: lit s'
  end.

Definition byte_of_N (n : N) : Byte.byte :=
  match Byte.of_N n with
  | Some b => b
  | None => Byte.x00
  end.

(** The bytes of an ASCII literal, as a daemon would send them. *)
Definition blit (s : string) : bytes := map byte_of_N (lit s).

Definition is_surrogate (c : N) : bool := (0xD800 <=? c) && (c <? 0xE000).

(** [str.encode('utf-8')] on one code point: [None] stands for
    [UnicodeEncodeError] (surrogates not allowed). *)
Definition encode_cp (c : N) : option (list N) :=
  if c <? 0x80 then Some [c]
  else if c <? 0x800 then
    Some [N.lor 0xC0 (N.shiftr c 6); N.lor 0x80 (N.land c 0x3F)]
  else if is_surrogate c then None
  else if c <? 0x10000 then
    Some [N.lor 0xE0 (N.shiftr c 12);
          N.lor 0x80 (N.land (N.shiftr c 6) 0x3F);
          N.lor 0x80 (N.land c 0x3F)]
  else if c <? 0x110000 then
    Some [N.lor 0xF0 (N.shiftr c 18);
          N.lor 0x80 (N.land (N.shiftr c 12) 0x3F);
          N.lor 0x80 (N.land (N.shiftr c 6) 0x3F);
          N.lor 0x80 (N.land c 0x3F)]
  else None.

Fixpoint encode_utf8 (s : pystr) : option bytes :=
  match s with
  | [] => Some []
  | c :: s' =>
      match encode_cp c, encode_utf8 s' with
      | Some bs, Some rest => Some (map byte_of_N bs ++ rest)
      | _, _ => None
      end
  end.

Definition in_range (lo hi b : N) : bool := (lo <=? b) && (b <=? hi).
Definition is_cont (b : N) : bool := in_range 0x80 0xBF b.

(** The range of the second byte of a well-formed sequence, by lead byte
    (it excludes overlong forms, surrogates and values above U+10FFFF). *)
Definition second_ok (b0 b1 : N) : bool :=
  if b0 =? 0xE0 then in_range 0xA0 0xBF b1
  else if b0 =? 0xED then in_range 0x80 0x9F b1
  else if b0 =? 0xF0 then in_range 0x90 0xBF b1
  else if b0 =? 0xF4 then in_range 0x80 0x8F b1
  else is_cont b1.

Definition low6 (b : N) : N := N.land b 0x3F.

(** [bytes.decode('utf-8', errors='ignore')]: a well-formed sequence
    yields its code point; a byte that starts none is dropped and decoding
    resumes at the next byte.  It never fails. *)
Fixpoint decode_utf8_ignore (bs : bytes) : pystr :=
  match bs with
  | [] => []
  | x0 :: r0 =>
      let b0 := Byte.to_N x0 in
      if b0 <? 0x80 then b0 :: decode_utf8_ignore r0
      else if in_range 0xC2 0xDF b0 then
        match r0 with
        | x1 :: r1 =>
            let b1 := Byte.to_N x1 in
            if is_cont b1
            then N.lor (N.shiftl (N.land b0 0x1F) 6) (low6 b1)
                   :: decode_utf8_ignore r1
            else decode_utf8_ignore r0
        | _ => decode_utf8_ignore r0
        end
      else if in_range 0xE0 0xEF b0 then
        match r0 with
        | x1 :: (x2 :: r2) =>
            let b1 := Byte.to_N x1 in
            let b2 := Byte.to_N x2 in
            if second_ok b0 b1 && is_cont b2
            then N.lor (N.shiftl (N.land b0 0x0F) 12)
                   (N.lor (N.shiftl (low6 b1) 6) (low6 b2))
                   :: decode_utf8_ignore r2
            else decode_utf8_ignore r0
        | _ => decode_utf8_ignore r0
        end
      else if in_range 0xF0 0xF4 b0 then
        match r0 with
        | x1 :: (x2 :: (x3 :: r3)) =>
            let b1 := Byte.to_N x1 in
            let b2 := Byte.to_N x2 in
            let b3 := Byte.to_N x3 in
            if second_ok b0 b1 && is_cont b2 && is_cont b3
            then N.lor (N.shiftl (N.land b0 0x07) 18)
                   (N.lor (N.shiftl (low6 b1) 12)
                      (N.lor (N.shiftl (low6 b2) 6) (low6 b3)))
                   :: decode_utf8_ignore r3
            else decode_utf8_ignore r0
        | _ => decode_utf8_ignore r0
        end
      else decode_utf8_ignore r0
  end.

(** [str.startswith(prefix)]. *)
Fixpoint startswith (s prefix : pystr) {struct prefix} : bool :=
  match prefix, s with
  | [], _ => true
  | p :: prefix', c :: s' => (c =? p) && startswith s' prefix'
  | _ :: _, [] => false
  end.

(** The line boundaries of [str.splitlines]: LF, CR, VT, FF, FS, GS, RS,
    NEL, LS and PS. *)
Definition is_linebreak (c : N) : bool :=
  (c =? 0x0A) || (c =? 0x0D) || (c =? 0x0B) || (c =? 0x0C) ||
  (c =? 0x1C) || (c =? 0x1D) || (c =? 0x1E) || (c =? 0x85) ||
  (c =? 0x2028) || (c =? 0x2029).

(** [str.splitlines()] with the pending line [cur] kept reversed: the
    boundaries are not kept, CR LF is one boundary, and no empty line
    follows a final boundary. *)
Fixpoint splitlines_from (cur : pystr) (s : pystr) : list pystr :=
  match s with
  | [] => match cur with [] => [] | _ => [rev cur] end
  | c :: s' =>
      if is_linebreak c then
        rev cur ::
          match s' with
          | c' :: s'' =>
              if (c =? 0x0D) && (c' =? 0x0A)
              then splitlines_from [] s''
              else splitlines_from [] s'
          | [] => splitlines_from [] s'
          end
      else splitlines_from (c :: cur) s'
  end.

Definition splitlines (s : pystr) : list pystr := splitlines_from [] s.

(** [str.split(sep, maxsplit)] for a one-character separator, with the
    pending field [cur] kept reversed: at most [maxsplit] cuts, the rest
    of the string is the last field. *)
Fixpoint split_from (sep : N) (maxsplit : nat) (cur : pystr) (s : pystr)
  : list pystr :=
  match maxsplit with
  | O => [rev cur ++ s]
  | S m =>
      match s with
      | [] => [rev cur]
      | c :: s' =>
          if c =? sep then rev cur :: split_from sep m [] s'
          else split_from sep maxsplit (c :: cur) s'
      end
  end.

Definition split (sep : N) (maxsplit : nat) (s : pystr) : list pystr :=
  split_from sep maxsplit [] s.

End PyStr.
Import PyStr.

(** ** The environment of the extension *)

(** The [OSError] family: everything an [except (socket.error, OSError)]
    clause catches ([socket.timeout] and [BrokenPipeError] are subclasses
    of [OSError]; [socket.error] is [OSError]). *)
Inductive os_error : Type :=
| SocketTimeout
| BrokenPipe
| ConnectionRefused
| OtherOSError.

(** The result of a call that may raise an [OSError]. *)
Inductive result (A : Type) : Type :=
| Ok (a : A)
| Err (e : os_error).
Arguments Ok {A} a.
Arguments Err {A} e.

Definition handle : Type := N.

(** The calls the code makes to its environment. *)
Inductive call : Type :=
| Time                                     (* time.time() *)
| GetEnv (name : pystr)                    (* os.environ.get(name) *)
| GetUid                                   (* os.getuid() *)
| PathExists (p : pystr)                   (* os.path.exists(p) *)
| SocketNew                                (* socket.socket(AF_UNIX, ...) *)
| SetTimeout (s : handle) (t : Q)          (* s.settimeout(t) *)
| Connect (s : handle) (p : pystr)         (* s.connect(p) *)
| SendAll (s : handle) (data : bytes)      (* s.sendall(data) *)
| Recv (s : handle) (bufsize : N)          (* s.recv(bufsize) *)
| Close (s : handle).                      (* s.close() *)

(** What each call answers. *)
Definition ans (c : call) : Type :=
  match c with
  | Time => Q
  | GetEnv _ => option pystr
  | GetUid => N
  | PathExists _ => bool
  | SocketNew => result handle
  | SetTimeout _ _ => result unit
  | Connect _ _ => result unit
  | SendAll _ _ => result unit
  | Recv _ _ => result bytes
  | Close _ => result unit
  end.

(** A call together with its answer, as recorded in a trace. *)
Inductive event : Type :=
| ETime (now : Q)
| EGetEnv (name : pystr) (v : option pystr)
| EGetUid (uid : N)
| EPathExists (p : pystr) (b : bool)
| ESocketNew (r : result handle)
| ESetTimeout (s : handle) (t : Q) (r : result unit)
| EConnect (s : handle) (p : pystr) (r : result unit)
| ESendAll (s : handle) (data : bytes) (r : result unit)
| ERecv (s : handle) (bufsize : N) (r : result bytes)
| EClose (s : handle) (r : result unit).

Definition observe (c : call) : ans c → event :=
  match c with
  | Time => ETime
  | GetEnv name => EGetEnv name
  | GetUid => EGetUid
  | PathExists p => EPathExists p
  | SocketNew => ESocketNew
  | SetTimeout s t => ESetTimeout s t
  | Connect s p => EConnect s p
  | SendAll s d => ESendAll s d
  | Recv s n => ERecv s n
  | Close s => EClose s
  end.

(** Programs: a returned value, or a call and what to do with its answer. *)
Inductive prog (A : Type) : Type :=
| Ret (a : A)
| Vis (c : call) (k : ans c → prog A).
Arguments Ret {A} a.
Arguments Vis {A} c k.

Fixpoint bind {A B : Type} (p : prog A) (f : A → prog B) : prog B :=
  match p with
  | Ret a => f a
  | Vis c k => Vis c (λ x, bind (k x) f)
  end.

Definition perform (c : call) : prog (ans c) := Vis c Ret.

Declare Scope prog_scope.
Delimit Scope prog_scope with prog.
Notation "x <- p ;; q" := (bind p (λ x, q))
  (at level 100, p at next level, right associativity) : prog_scope.
Open Scope prog_scope.

(** An environment: a world state and the answer it gives to each call. *)
Definition handler (W : Type) : Type := ∀ c : call, W → ans c * W.

(** Running a program in an environment gives its value, the final world
    and the trace of the calls it made. *)
Fixpoint interp {W A : Type} (h : handler W) (p : prog A) (w : W)
  : A * W * list event :=
  match p with
  | Ret a => (a, w, [])
  | Vis c k =>
      let xw := h c w in
      let r := interp h (k xw.1) xw.2 in
      (r.1.1, r.1.2, observe c xw.1 :: r.2)
  end.

(** What a method call does as seen by its caller. *)
Inductive exn : Type :=
| OSError (e : os_error)
| UnicodeEncodeError
| AttributeError.

Inductive outcome (A : Type) : Type :=
| Returned (a : A)
| Raised (e : exn).
Arguments Returned {A} a.
Arguments Raised {A} e.

(** ** AeroCloudStatusCache *)

Module AeroCloudStatusCache.

Record t : Type := mk {
  _cache : gmap pystr (pystr * Q);
  _ttl : Z;
}.

(** [__init__(ttl_seconds=5)] *)
Definition init (ttl_seconds : Z) : t :=
  {| _cache := ∅; _ttl := ttl_seconds |}.

Definition get (path : pystr) (self : t) : prog (option pystr * t) :=
  match _cache self !! path with
  | Some (status, timestamp) =>
      now <- perform Time;;
      if Qlt_le_dec (now - timestamp) (inject_Z (_ttl self))
      then Ret (Some status, self)
      else Ret (None, {| _cache := delete path (_cache self);
                         _ttl := _ttl self |})
  | None => Ret (None, self)
  end.

Definition set (path : pystr) (status : pystr) (self : t) : prog t :=
  now <- perform Time;;
  Ret {| _cache := <[path := (status, now)]> (_cache self);
         _ttl := _ttl self |}.

End AeroCloudStatusCache.

(** ** AeroCloudDaemonClient *)

Module AeroCloudDaemonClient.

Definition SOCKET_TIMEOUT : Q := 1 # 10.   (* 100ms *)
Definition RECONNECT_INTERVAL : Z := 30.   (* seconds *)

Record t : Type := mk {
  _socket : option handle;
  _socket_path : option pystr;
  _last_connect_attempt : Q;
}.

Definition with_socket (s : option handle) (self : t) : t :=
  {| _socket := s;
     _socket_path := _socket_path self;
     _last_connect_attempt := _last_connect_attempt self |}.

Definition with_socket_path (p : option pystr) (self : t) : t :=
  {| _socket := _socket self;
     _socket_path := p;
     _last_connect_attempt := _last_connect_attempt self |}.

Definition with_last_connect_attempt (now : Q) (self : t) : t :=
  {| _socket := _socket self;
     _socket_path := _socket_path self;
     _last_connect_attempt := now |}.

Definition slash : N := 0x2F.
Definition colon : N := 0x3A.
Definition LF : N := 0x0A.
Definition TAB : N := 0x09.

Definition endswith_slash (a : pystr) : bool :=
  match last a with
  | Some c => c =? slash
  | None => false
  end.

(** One step of [os.path.join] (posixpath): an absolute component
    replaces what precedes it, otherwise it is appended after one slash. *)
Definition path_join2 (a b : pystr) : pystr :=
  if startswith b [slash] then b
  else match a with
       | [] => b
       | _ => if endswith_slash a then a ++ b else a ++ slash :: b
       end.

Definition path_join (a : pystr) (ps : list pystr) : pystr :=
  foldl path_join2 a ps.

(** The decimal digits of an [int], as an f-string renders it. *)
Definition str_of_N (n : N) : pystr := lit (pretty n).

Definition _find_socket_path (self : t) : prog t :=
  runtime_dir <- perform (GetEnv (lit "XDG_RUNTIME_DIR"));;
  match runtime_dir with
  | Some (c :: d) =>
      Ret (with_socket_path
             (Some (path_join (c :: d) [lit "aerocloud"; lit "socket"])) self)
  | _ =>
      uid <- perform GetUid;;
      Ret (with_socket_path
             (Some (lit "/tmp/aerocloud-" ++ str_of_N uid ++ lit "/socket"))
             self)
  end.

(** [__init__] *)
Definition init : prog t :=
  _find_socket_path
    {| _socket := None; _socket_path := None; _last_connect_attempt := 0 |}.

(** [try: self._socket.close() except (socket.error, OSError): pass] and
    [self._socket = None], under [if self._socket:]. *)
Definition close_and_discard (self : t) : prog t :=
  match _socket self with
  | Some s =>
      _ <- perform (Close s);;
      Ret (with_socket None self)
  | None => Ret self
  end.

(** The rest of an attempt of [_connect]: the existence check and the
    [try] block that creates and connects the socket. *)
Definition open_socket (self : t) : prog (bool * t) :=
  match _socket_path self with
  | None | Some [] => Ret (false, self)
  | Some path =>
      found <- perform (PathExists path);;
      if negb found then Ret (false, self)
      else
        r <- perform SocketNew;;
        match r with
        | Err _ => Ret (false, self)
        | Ok sock =>
            r <- perform (SetTimeout sock SOCKET_TIMEOUT);;
            match r with
            | Err _ => Ret (false, self)
            | Ok _ =>
                r <- perform (Connect sock path);;
                match r with
                | Err _ => Ret (false, self)
                | Ok _ => Ret (true, with_socket (Some sock) self)
                end
            end
        end
  end.

Definition _connect (self : t) : prog (bool * t) :=
  now <- perform Time;;
  if Qlt_le_dec (now - _last_connect_attempt self) (inject_Z RECONNECT_INTERVAL)
  then Ret (bool_decide (_socket self ≠ None), self)
  else
    self <- close_and_discard (with_last_connect_attempt now self);;
    open_socket self.

(** [f"RETRIEVE_FILE_STATUS\npath\t{file_path}\ndone\n"] *)
Definition request (file_path : pystr) : pystr :=
  lit "RETRIEVE_FILE_STATUS" ++ LF :: lit "path" ++ TAB :: file_path
    ++ LF :: lit "done" ++ [LF].

(** The loop over the lines of the response: the second field of the
    first line that starts with [STATUS:] and has three fields. *)
Fixpoint scan_lines (lines : list pystr) : option pystr :=
  match lines with
  | [] => None
  | line :: rest =>
      if startswith line (lit "STATUS:") then
        let parts := split colon 2 line in
        if bool_decide (3 ≤ length parts)%nat
        then parts !! 1%nat
        else scan_lines rest
      else scan_lines rest
  end.

Definition parse_response (response : pystr) : option pystr :=
  scan_lines (splitlines response).

(** The [except (socket.timeout, socket.error, OSError, BrokenPipeError)]
    clause of [query_status]. *)
Definition on_transport_error (self : t)
  : prog (outcome (option pystr) * t) :=
  self <- close_and_discard self;;
  Ret (Returned None, self).

(** The [try] block of [query_status] on the handle [s]. *)
Definition exchange (file_path : pystr) (s : handle) (self : t)
  : prog (outcome (option pystr) * t) :=
  match encode_utf8 (request file_path) with
  | None => Ret (Raised UnicodeEncodeError, self)
  | Some data =>
      r <- perform (SendAll s data);;
      match r with
      | Err _ => on_transport_error self
      | Ok _ =>
          r <- perform (Recv s 1024);;
          match r with
          | Err _ => on_transport_error self
          | Ok received =>
              Ret (Returned (parse_response (decode_utf8_ignore received)),
                   self)
          end
      end
  end.

Definition query_status (file_path : pystr) (self : t)
  : prog (outcome (option pystr) * t) :=
  connected <-
    match _socket self with
    | Some _ => Ret (true, self)
    | None => _connect self
    end;;
  let self := connected.2 in
  if negb connected.1 then Ret (Returned None, self)
  else
    match _socket self with
    | None => Ret (Raised AttributeError, self)
    | Some s => exchange file_path s self
    end.

(** A caller's sequence of queries, one after the other. *)
Fixpoint query_all (paths : list pystr) (self : t)
  : prog (list (outcome (option pystr)) * t) :=
  match paths with
  | [] => Ret ([], self)
  | p :: paths' =>
      r <- query_status p self;;
      rs <- query_all paths' r.2;;
      Ret (r.1 :: rs.1, rs.2)
  end.

End AeroCloudDaemonClient.

(** ** Traces of the client *)

(** The traces each method of the client can leave, with the value it
    returns and the state it leaves, whatever the environment answers. *)
Module ClientRuns.
Import AeroCloudDaemonClient.

(** [close_and_discard]. *)
Inductive close_run (self : t) : list event → t → Prop :=
| close_nothing :
    _socket self = None →
    close_run self [] self
| close_handle s r :
    _socket self = Some s →
    close_run self [EClose s r] (with_socket None self).

(** [open_socket]. *)
Inductive attempt_run (self : t) : list event → bool → t → Prop :=
| attempt_no_path :
    _socket_path self = None ∨ _socket_path self = Some [] →
    attempt_run self [] false self
| attempt_path_missing p :
    _socket_path self = Some p → p ≠ [] →
    attempt_run self [EPathExists p false] false self
| attempt_socket_fails p e :
    _socket_path self = Some p → p ≠ [] →
    attempt_run self [EPathExists p true; ESocketNew (Err e)] false self
| attempt_settimeout_fails p sock e :
    _socket_path self = Some p → p ≠ [] →
    attempt_run self
      [EPathExists p true; ESocketNew (Ok sock);
       ESetTimeout sock SOCKET_TIMEOUT (Err e)] false self
| attempt_connect_fails p sock u e :
    _socket_path self = Some p → p ≠ [] →
    attempt_run self
      [EPathExists p true; ESocketNew (Ok sock);
       ESetTimeout sock SOCKET_TIMEOUT (Ok u); EConnect sock p (Err e)]
      false self
| attempt_connects p sock u u' :
    _socket_path self = Some p → p ≠ [] →
    attempt_run self
      [EPathExists p true; ESocketNew (Ok sock);
       ESetTimeout sock SOCKET_TIMEOUT (Ok u); EConnect sock p (Ok u')]
      true (with_socket (Some sock) self).

(** [_connect]. *)
Inductive connect_run (self : t) : list event → bool → t → Prop :=
| connect_suppressed now :
    (now - _last_connect_attempt self < inject_Z RECONNECT_INTERVAL)%Q →
    connect_run self [ETime now] (bool_decide (_socket self ≠ None)) self
| connect_attempt now tr1 self1 tr2 r self2 :
    (inject_Z RECONNECT_INTERVAL <= now - _last_connect_attempt self)%Q →
    close_run (with_last_connect_attempt now self) tr1 self1 →
    attempt_run self1 tr2 r self2 →
    connect_run self (ETime now :: tr1 ++ tr2) r self2.

(** [exchange]. *)
Inductive exchange_run (file_path : pystr) (s : handle) (self : t)
  : list event → outcome (option pystr) → t → Prop :=
| exchange_unencodable :
    encode_utf8 (request file_path) = None →
    exchange_run file_path s self [] (Raised UnicodeEncodeError) self
| exchange_send_fails data e tr self' :
    encode_utf8 (request file_path) = Some data →
    close_run self tr self' →
    exchange_run file_path s self
      (ESendAll s data (Err e) :: tr) (Returned None) self'
| exchange_recv_fails data u e tr self' :
    encode_utf8 (request file_path) = Some data →
    close_run self tr self' →
    exchange_run file_path s self
      (ESendAll s data (Ok u) :: ERecv s 1024 (Err e) :: tr)
      (Returned None) self'
| exchange_reply data u received :
    encode_utf8 (request file_path) = Some data →
    exchange_run file_path s self
      [ESendAll s data (Ok u); ERecv s 1024 (Ok received)]
      (Returned (parse_response (decode_utf8_ignore received))) self.

(** [query_status]. *)
Inductive query_run (file_path : pystr) (self : t)
  : list event → outcome (option pystr) → t → Prop :=
| query_reuses_handle s tr r self' :
    _socket self = Some s →
    exchange_run file_path s self tr r self' →
    query_run file_path self tr r self'
| query_not_connected tr self' :
    _socket self = None →
    connect_run self tr false self' →
    query_run file_path self tr (Returned None) self'
| query_connects tr1 self1 s tr2 r self2 :
    _socket self = None →
    connect_run self tr1 true self1 →
    _socket self1 = Some s →
    exchange_run file_path s self1 tr2 r self2 →
    query_run file_path self (tr1 ++ tr2) r self2.

(** An event is a use of the handle [s]: a send, a receive or a close on
    it. *)
Definition on_handle (s : handle) (e : event) : Prop :=
  match e with
  | ESendAll s' _ _ | ERecv s' _ _ | EClose s' _ => s' = s
  | _ => False
  end.

Definition is_clock_reading (e : event) : Prop :=
  match e with
  | ETime _ => True
  | _ => False
  end.

(** An event creates or connects a socket. *)
Definition opens_socket (e : event) : Prop :=
  match e with
  | ESocketNew _ | EConnect _ _ _ => True
  | _ => False
  end.

(** A line the scan of [query_status] takes its status from. *)
Definition accepted (line : pystr) : bool :=
  startswith line (lit "STATUS:")
  && bool_decide (3 ≤ length (split colon 2 line))%nat.

End ClientRuns.

(** ** Test doubles *)

Module Mock.

(** A scripted world: a clock that advances by [tick] at each reading, a
    filesystem where the socket path is present or not, and a daemon that
    answers every send and receive the same way. *)
Record world : Type := mk {
  clock : Q;
  tick : Q;
  path_present : bool;
  next_handle : handle;
  connect_result : result unit;
  send_result : result unit;
  reply : result bytes;
}.

Definition advance (w : world) : world :=
  {| clock := clock w + tick w; tick := tick w;
     path_present := path_present w; next_handle := next_handle w;
     connect_result := connect_result w; send_result := send_result w;
     reply := reply w |}.

Definition allocate (w : world) : world :=
  {| clock := clock w; tick := tick w;
     path_present := path_present w; next_handle := next_handle w + 1;
     connect_result := connect_result w; send_result := send_result w;
     reply := reply w |}.

Definition daemon : handler world :=
  λ c w,
    match c as c0 return ans c0 * world with
    | Time => (clock w, advance w)
    | GetEnv _ => (None, w)
    | GetUid => (1000, w)
    | PathExists _ => (path_present w, w)
    | SocketNew => (Ok (next_handle w), allocate w)
    | SetTimeout _ _ => (Ok tt, w)
    | Connect _ _ => (connect_result w, w)
    | SendAll _ _ => (send_result w, w)
    | Recv _ _ => (reply w, w)
    | Close _ => (Ok tt, w)
    end.

(** A world at clock reading [now] whose daemon replies [r]. *)
Definition replying (now step : Q) (r : result bytes) : world :=
  {| clock := now; tick := step; path_present := true; next_handle := 7;
     connect_result := Ok tt; send_result := Ok tt; reply := r |}.

(** A world where the daemon is not running: no socket file. *)
Definition absent (now step : Q) : world :=
  {| clock := now; tick := step; path_present := false; next_handle := 7;
     connect_result := Err ConnectionRefused; send_result := Err BrokenPipe;
     reply := Err BrokenPipe |}.

Definition socket_path : pystr := lit "/run/user/1000/aerocloud/socket".

(** A client holding the live handle 3. *)
Definition connected : AeroCloudDaemonClient.t :=
  {| AeroCloudDaemonClient._socket := Some 3;
     AeroCloudDaemonClient._socket_path := Some socket_path;
     AeroCloudDaemonClient._last_connect_attempt := 1000 |}.

(** A client without handle whose last attempt was at reading 1000. *)
Definition disconnected : AeroCloudDaemonClient.t :=
  {| AeroCloudDaemonClient._socket := None;
     AeroCloudDaemonClient._socket_path := Some socket_path;
     AeroCloudDaemonClient._last_connect_attempt := 1000 |}.

Definition some_file : pystr := lit "/home/user/AeroCloud/report.txt".
Definition other_file : pystr := lit "/home/user/AeroCloud/notes.md".

(** A path with a lone surrogate, as [os.fsdecode] gives for the file
    name byte [0x80]: a [str], but one that UTF-8 cannot encode. *)
Definition unencodable_file : pystr :=
  lit "/home/user/AeroCloud/" ++ [0xDC80].

(** Replies of the daemon. *)
Definition reply_ok : bytes := blit "STATUS:OK:synced" ++ [Byte.x0a].
Definition reply_two_lines : bytes :=
  blit "STATUS:SYNC:busy" ++ [Byte.x0a] ++ blit "STATUS:OK:synced"
    ++ [Byte.x0a].
Definition reply_garbage : bytes :=
  [Byte.xff; Byte.xfe] ++ blit "garbage" ++ [Byte.x0a] ++ blit "STATUS:OK"
    ++ [Byte.x0a].

(** The cache of the extension, and a clock that starts at 1000 and
    advances by 2 or by 7 seconds at each reading. *)
Definition fresh_cache : AeroCloudStatusCache.t := AeroCloudStatusCache.init 5.
Definition cache_with_ok : AeroCloudStatusCache.t :=
  {| AeroCloudStatusCache._cache := <[some_file := (lit "OK", 1000%Q)]> ∅;
     AeroCloudStatusCache._ttl := 5 |}.
Definition quick : world := replying 1000 2 (Ok reply_ok).
Definition slow : world := replying 1000 7 (Ok reply_ok).

End Mock.

(** ** AeroCloudExtension *)

Module AeroCloudExtension.

(** [Nemo.OperationResult]. *)
Inductive OperationResult : Type :=
| COMPLETE
| FAILED
| IN_PROGRESS.

(** What the extension reads from a [Nemo.FileInfo] and does to it:
    [get_uri_scheme()], [get_location().get_path()] and the emblems that
    [add_emblem] has put on the file, oldest first. *)
Record FileInfo : Type := mkFile {
  uri_scheme : pystr;
  location_path : option pystr;
  emblems : list pystr;
}.

Definition add_emblem (emblem : pystr) (file : FileInfo) : FileInfo :=
  {| uri_scheme := uri_scheme file;
     location_path := location_path file;
     emblems := emblems file ++ [emblem] |}.

Definition STATUS_EMBLEMS : gmap pystr (option pystr) :=
  list_to_map
    [(lit "OK", Some (lit "emblem-aerocloud-synced"));
     (lit "SYNC", Some (lit "emblem-aerocloud-syncing"));
     (lit "ERROR", Some (lit "emblem-aerocloud-error"));
     (lit "IGNORE", Some (lit "emblem-aerocloud-ignored"));
     (lit "CONFLICT", Some (lit "emblem-aerocloud-conflict"));
     (lit "NEW", Some (lit "emblem-aerocloud-new"));
     (lit "NOP", None)].

Record t : Type := mk {
  _cache : AeroCloudStatusCache.t;
  _client : AeroCloudDaemonClient.t;
}.

(** [__init__] *)
Definition init : prog t :=
  client <- AeroCloudDaemonClient.init;;
  Ret {| _cache := AeroCloudStatusCache.init 5; _client := client |}.

(** [STATUS_EMBLEMS.get(status)], then [add_emblem] under [if emblem:]. *)
Definition _apply_emblem (file : FileInfo) (status : pystr) : FileInfo :=
  match STATUS_EMBLEMS !! status with
  | Some (Some (c :: emblem)) => add_emblem (c :: emblem) file
  | _ => file
  end.

Definition update_file_info (file : FileInfo) (self : t)
  : prog (outcome OperationResult * t * FileInfo) :=
  if bool_decide (uri_scheme file ≠ lit "file")
  then Ret (Returned COMPLETE, self, file)
  else
    match location_path file with
    | None | Some [] => Ret (Returned COMPLETE, self, file)
    | Some file_path =>
        cached <- AeroCloudStatusCache.get file_path (_cache self);;
        let self := {| _cache := cached.2; _client := _client self |} in
        match cached.1 with
        | Some cached_status =>
            Ret (Returned COMPLETE, self, _apply_emblem file cached_status)
        | None =>
            q <- AeroCloudDaemonClient.query_status file_path (_client self);;
            let self := {| _cache := _cache self; _client := q.2 |} in
            match q.1 with
            | Raised e => Ret (Raised e, self, file)
            | Returned (Some (c :: status)) =>
                cache <- AeroCloudStatusCache.set file_path (c :: status)
                           (_cache self);;
                Ret (Returned COMPLETE,
                     {| _cache := cache; _client := _client self |},
                     _apply_emblem file (c :: status))
            | Returned _ => Ret (Returned COMPLETE, self, file)
            end
        end
    end.

End AeroCloudExtension.

(** ** The parts of a request *)

Module RequestParts.
Import AeroCloudDaemonClient.

(** What precedes and what follows the path in [request]. *)
Definition request_head : pystr :=
  lit "RETRIEVE_FILE_STATUS" ++ LF :: lit "path" ++ [TAB].
Definition request_tail : pystr := LF :: lit "done" ++ [LF].

End RequestParts.

(** ** Shapes of text and of traces *)

Module TraceShapes.

(** A string without line boundary. *)
Definition no_linebreak (s : pystr) : Prop :=
  Forall (λ c, is_linebreak c = false) s.


End TraceShapes.

(** ** Runs of the extension *)

Module ExtensionShapes.

(** The statuses that have an emblem, with their emblem. *)
Definition emblem_table : list (pystr * pystr) :=
  [(lit "OK", lit "emblem-aerocloud-synced");
   (lit "SYNC", lit "emblem-aerocloud-syncing");
   (lit "ERROR", lit "emblem-aerocloud-error");
   (lit "IGNORE", lit "emblem-aerocloud-ignored");
   (lit "CONFLICT", lit "emblem-aerocloud-conflict");
   (lit "NEW", lit "emblem-aerocloud-new")].

(** Every status in the cache is a non-empty string. *)
Definition statuses_nonempty (cache : AeroCloudStatusCache.t) : Prop :=
  ∀ path status timestamp,
    AeroCloudStatusCache._cache cache !! path = Some (status, timestamp) →
    status ≠ [].

(** What [update_file_info] does once scheme and path are checked. *)
Inductive checked_run {W : Type} (h : handler W)
    (file : AeroCloudExtension.FileInfo) (file_path : pystr)
    (self : AeroCloudExtension.t) (w : W)
  : outcome AeroCloudExtension.OperationResult → AeroCloudExtension.t →
    AeroCloudExtension.FileInfo → W → list event → Prop :=
| checked_hit status cache1 w1 tr1 :
    interp h (AeroCloudStatusCache.get file_path
                (AeroCloudExtension._cache self)) w
    = ((Some status, cache1), w1, tr1) →
    checked_run h file file_path self w
      (Returned AeroCloudExtension.COMPLETE)
      {| AeroCloudExtension._cache := cache1;
         AeroCloudExtension._client := AeroCloudExtension._client self |}
      (AeroCloudExtension._apply_emblem file status) w1 tr1
| checked_raise cache1 w1 tr1 e client2 w2 tr2 :
    interp h (AeroCloudStatusCache.get file_path
                (AeroCloudExtension._cache self)) w
    = ((None, cache1), w1, tr1) →
    interp h (AeroCloudDaemonClient.query_status file_path
                (AeroCloudExtension._client self)) w1
    = ((Raised e, client2), w2, tr2) →
    checked_run h file file_path self w (Raised e)
      {| AeroCloudExtension._cache := cache1;
         AeroCloudExtension._client := client2 |}
      file w2 (tr1 ++ tr2)
| checked_nothing cache1 w1 tr1 status client2 w2 tr2 :
    interp h (AeroCloudStatusCache.get file_path
                (AeroCloudExtension._cache self)) w
    = ((None, cache1), w1, tr1) →
    interp h (AeroCloudDaemonClient.query_status file_path
                (AeroCloudExtension._client self)) w1
    = ((Returned status, client2), w2, tr2) →
    status = None ∨ status = Some [] →
    checked_run h file file_path self w
      (Returned AeroCloudExtension.COMPLETE)
      {| AeroCloudExtension._cache := cache1;
         AeroCloudExtension._client := client2 |}
      file w2 (tr1 ++ tr2)
| checked_status cache1 w1 tr1 status client2 w2 tr2 cache2 w3 tr3 :
    interp h (AeroCloudStatusCache.get file_path
                (AeroCloudExtension._cache self)) w
    = ((None, cache1), w1, tr1) →
    interp h (AeroCloudDaemonClient.query_status file_path
                (AeroCloudExtension._client self)) w1
    = ((Returned (Some status), client2), w2, tr2) →
    status ≠ [] →
    interp h (AeroCloudStatusCache.set file_path status cache1) w2
    = (cache2, w3, tr3) →
    checked_run h file file_path self w
      (Returned AeroCloudExtension.COMPLETE)
      {| AeroCloudExtension._cache := cache2;
         AeroCloudExtension._client := client2 |}
      (AeroCloudExtension._apply_emblem file status) w3
      (tr1 ++ tr2 ++ tr3).

End ExtensionShapes.

(** ** More test doubles *)

Module MockFiles.

Definition report : AeroCloudExtension.FileInfo :=
  {| AeroCloudExtension.uri_scheme := lit "file";
     AeroCloudExtension.location_path := Some Mock.some_file;
     AeroCloudExtension.emblems := [] |}.

Definition remote : AeroCloudExtension.FileInfo :=
  {| AeroCloudExtension.uri_scheme := lit "sftp";
     AeroCloudExtension.location_path := Some Mock.some_file;
     AeroCloudExtension.emblems := [] |}.

(** An extension whose client holds the live handle 3 and whose cache is
    empty, or holds [OK] for [some_file] since reading 1000. *)
Definition extension : AeroCloudExtension.t :=
  {| AeroCloudExtension._cache := Mock.fresh_cache;
     AeroCloudExtension._client := Mock.connected |}.


(** Text outside ASCII: two-, three- and four-byte code points. *)
Definition accented : pystr := lit "/home/user/" ++ [0xE9; 0x20AC; 0x1F600].

(** The daemon of [Mock], in a session where XDG_RUNTIME_DIR is set. *)
Definition runtime_dir : pystr := lit "/run/user/1000".

Definition daemon_with_runtime_dir : handler Mock.world :=
  λ c w,
    match c as c0 return ans c0 * Mock.world → ans c0 * Mock.world with
    | GetEnv _ => λ _, (Some runtime_dir, w)
    | _ => λ answer, answer
    end (Mock.daemon c w).

(** A client before [_find_socket_path]. *)
Definition blank : AeroCloudDaemonClient.t :=
  {| AeroCloudDaemonClient._socket := None;
     AeroCloudDaemonClient._socket_path := None;
     AeroCloudDaemonClient._last_connect_attempt := 0 |}.

(** Bytes that [encode] produces, and worlds for the scenarios. *)
Definition accented_bytes : bytes := default [] (encode_utf8 accented).
Definition request_bytes : bytes :=
  default [] (encode_utf8 (AeroCloudDaemonClient.request Mock.some_file)).
Definition answering : Mock.world := Mock.replying 2000 1 (Ok Mock.reply_ok).
Definition timing_out : Mock.world :=
  Mock.replying 2000 1 (Err SocketTimeout).

(** An extension whose client holds no handle. *)
Definition extension_disconnected : AeroCloudExtension.t :=
  {| AeroCloudExtension._cache := Mock.fresh_cache;
     AeroCloudExtension._client := Mock.disconnected |}.

End MockFiles.

(** * Properties *)

(** ** Running programs *)

Section Interp.
Context {W : Type} (h : handler W).

Lemma interp_ret {A} (a : A) w : interp h (Ret a) w = (a, w, []).
Proof. reflexivity. Qed.

Lemma interp_vis {A} c (k : ans c → prog A) w :
  interp h (Vis c k) w =
    ((interp h (k (h c w).1) (h c w).2).1.1,
     (interp h (k (h c w).1) (h c w).2).1.2,
     observe c (h c w).1 :: (interp h (k (h c w).1) (h c w).2).2).
Proof. reflexivity. Qed.

Lemma interp_bind {A B} (p : prog A) (f : A → prog B) w :
  interp h (bind p f) w =
    ((interp h (f (interp h p w).1.1) (interp h p w).1.2).1.1,
     (interp h (f (interp h p w).1.1) (interp h p w).1.2).1.2,
     (interp h p w).2 ++ (interp h (f (interp h p w).1.1) (interp h p w).1.2).2).
Proof.
  revert w. induction p as [a | c k IH]; intros w.
  - simpl. by destruct (interp h (f a) w) as [[? ?] ?].
  - simpl. rewrite IH. reflexivity.
Qed.

Lemma interp_eta {A} (p : prog A) w :
  interp h p w = ((interp h p w).1.1, (interp h p w).1.2, (interp h p w).2).
Proof. by destruct (interp h p w) as [[? ?] ?]. Qed.

Lemma interp_eta_pair {A B} (p : prog (A * B)) w :
  interp h p w =
    (((interp h p w).1.1.1, (interp h p w).1.1.2),
     (interp h p w).1.2, (interp h p w).2).
Proof. by destruct (interp h p w) as [[[? ?] ?] ?]. Qed.

End Interp.

(** Strict comparison of clock readings, as the code's [<] decides it. *)
Lemma Qlt_le_dec_true (x y : Q) (A : Type) (a b : A) :
  (x < y)%Q → (if Qlt_le_dec x y then a else b) = a.
Proof. intros Hlt. destruct (Qlt_le_dec x y) as [_ | Hle]; [done | lra]. Qed.

Lemma Qlt_le_dec_false (x y : Q) (A : Type) (a b : A) :
  (y <= x)%Q → (if Qlt_le_dec x y then a else b) = b.
Proof. intros Hle. destruct (Qlt_le_dec x y) as [Hlt | _]; [lra | done]. Qed.

(** ** The status cache *)

Module CacheProps.
Import AeroCloudStatusCache.

Section Cache.
Context {W : Type} (h : handler W).

(** [set] reads the clock once and stores the status with that reading. *)
Lemma set_run path status self w :
  interp h (set path status self) w =
    ({| _cache := <[path := (status, (h Time w).1)]> (_cache self);
        _ttl := _ttl self |},
     (h Time w).2, [ETime (h Time w).1]).
Proof. reflexivity. Qed.

Lemma set_entry path status self w self' w' now :
  interp h (set path status self) w = (self', w', [ETime now]) →
  _cache self' !! path = Some (status, now) ∧ _ttl self' = _ttl self.
Proof.
  rewrite set_run. intros [= <- _ <-]. simpl.
  by rewrite lookup_insert_eq.
Qed.

(** [get] on a path that has no entry does not even read the clock. *)
Lemma get_run_absent path self w :
  _cache self !! path = None →
  interp h (get path self) w = (None, self, w, []).
Proof. intros Hnone. unfold get. by rewrite Hnone. Qed.

Lemma get_run_fresh path self w status timestamp :
  _cache self !! path = Some (status, timestamp) →
  ((h Time w).1 - timestamp < inject_Z (_ttl self))%Q →
  interp h (get path self) w =
    (Some status, self, (h Time w).2, [ETime (h Time w).1]).
Proof.
  intros Hsome Hlt. unfold get. rewrite Hsome. simpl.
  by rewrite Qlt_le_dec_true.
Qed.

Lemma get_run_stale path self w status timestamp :
  _cache self !! path = Some (status, timestamp) →
  (inject_Z (_ttl self) <= (h Time w).1 - timestamp)%Q →
  interp h (get path self) w =
    (None, {| _cache := delete path (_cache self); _ttl := _ttl self |},
     (h Time w).2, [ETime (h Time w).1]).
Proof.
  intros Hsome Hle. unfold get. rewrite Hsome. simpl.
  by rewrite Qlt_le_dec_false.
Qed.

(** The three ways a lookup can go. *)
Lemma get_cases path self w r self' w' tr :
  interp h (get path self) w = (r, self', w', tr) →
  (_cache self !! path = None ∧ r = None ∧ self' = self ∧ w' = w ∧ tr = [])
  ∨ (∃ status timestamp now,
       _cache self !! path = Some (status, timestamp) ∧ tr = [ETime now] ∧
       (now - timestamp < inject_Z (_ttl self))%Q ∧
       r = Some status ∧ self' = self)
  ∨ (∃ status timestamp now,
       _cache self !! path = Some (status, timestamp) ∧ tr = [ETime now] ∧
       (inject_Z (_ttl self) <= now - timestamp)%Q ∧
       r = None ∧
       self' = {| _cache := delete path (_cache self); _ttl := _ttl self |}).
Proof.
  destruct (_cache self !! path) as [[status timestamp] |] eqn:Hl.
  - destruct (Qlt_le_dec ((h Time w).1 - timestamp) (inject_Z (_ttl self)))
      as [Hlt | Hle].
    + rewrite (get_run_fresh _ _ _ _ _ Hl Hlt). intros [= <- <- <- <-].
      right; left. by exists status, timestamp, (h Time w).1.
    + rewrite (get_run_stale _ _ _ _ _ Hl Hle). intros [= <- <- <- <-].
      right; right. by exists status, timestamp, (h Time w).1.
  - rewrite (get_run_absent _ _ _ Hl). intros [= <- <- <- <-]. by left.
Qed.

(** A lookup that finds an entry as old as the TTL or older drops it. *)
Lemma get_stale_entry P S timestamp self w r self' w' now :
  _cache self !! P = Some (S, timestamp) →
  interp h (get P self) w = (r, self', w', [ETime now]) →
  (inject_Z (_ttl self) <= now - timestamp)%Q →
  r = None ∧ _cache self' = delete P (_cache self) ∧
  _cache self' !! P = None.
Proof.
  intros Hl Hget Hle.
  apply get_cases in Hget as [(Hnone & _) | [Hfresh | Hstale]].
  - congruence.
  - destruct Hfresh as (st & ts' & now' & Hl' & [= <-] & Hlt & _).
    rewrite Hl in Hl'. injection Hl' as _ <-. lra.
  - destruct Hstale as (st & ts' & now' & _ & _ & _ & -> & ->).
    simpl. by rewrite lookup_delete_eq.
Qed.


(** C4: once the TTL has elapsed since the clock reading stored with the
    entry of P (the reading of the last [set(P, _)]), [get(P)] returns
    absent and deletes the entry; and whenever any lookup returns a
    status, the entry it comes from is younger than the TTL. *)
Theorem get_after_ttl_is_absent_and_deletes :
  (∀ P S self w self1 w1 t1 r self2 w2 t2,
     interp h (set P S self) w = (self1, w1, [ETime t1]) →
     interp h (get P self1) w1 = (r, self2, w2, [ETime t2]) →
     (inject_Z (_ttl self) <= t2 - t1)%Q →
     r = None ∧ _cache self2 = delete P (_cache self1) ∧
     _cache self2 !! P = None) ∧
  (∀ P S timestamp self w r self' w' now,
     _cache self !! P = Some (S, timestamp) →
     interp h (get P self) w = (r, self', w', [ETime now]) →
     (inject_Z (_ttl self) <= now - timestamp)%Q →
     r = None ∧ _cache self' = delete P (_cache self) ∧
     _cache self' !! P = None) ∧
  (∀ P self w S self' w' tr,
     interp h (get P self) w = (Some S, self', w', tr) →
     ∃ timestamp now,
       _cache self !! P = Some (S, timestamp) ∧ tr = [ETime now] ∧
       (now - timestamp < inject_Z (_ttl self))%Q).
Proof.
  split; [| split].
  - intros P S self w self1 w1 t1 r self2 w2 t2 Hset Hget Hle.
    destruct (set_entry _ _ _ _ _ _ _ Hset) as [Hentry Httl].
    eapply get_stale_entry; [exact Hentry | exact Hget |]. by rewrite Httl.
  - apply get_stale_entry.
  - intros P self w S self' w' tr Hget.
    apply get_cases in Hget as [(_ & [=] & _) | [Hfresh | Hstale]].
    + destruct Hfresh as (st & ts & now & Hl & -> & Hlt & [= ->] & _).
      by exists ts, now.
    + by destruct Hstale as (st & ts & now & _ & _ & _ & [=] & _).
Qed.

(** C9: a cache operation on P leaves the entry of every other path Q as
    it was (present or absent, status and timestamp), and the TTL; a
    [get(P)] on a path without entry changes nothing and calls nothing. *)
Theorem cache_operations_touch_only_their_path :
  (∀ P Q self w r self' w' tr,
     P ≠ Q →
     interp h (get P self) w = (r, self', w', tr) →
     _cache self' !! Q = _cache self !! Q ∧ _ttl self' = _ttl self) ∧
  (∀ P Q S self w self' w' tr,
     P ≠ Q →
     interp h (set P S self) w = (self', w', tr) →
     _cache self' !! Q = _cache self !! Q ∧ _ttl self' = _ttl self) ∧
  (∀ P self w r self' w' tr,
     _cache self !! P = None →
     interp h (get P self) w = (r, self', w', tr) →
     r = None ∧ self' = self ∧ w' = w ∧ tr = []).
Proof.
  split; [| split].
  - intros P Q self w r self' w' tr Hne Hget.
    apply get_cases in Hget as [(_ & _ & -> & _) | [Hfresh | Hstale]].
    + done.
    + by destruct Hfresh as (st & ts & now & _ & _ & _ & _ & ->).
    + destruct Hstale as (st & ts & now & _ & _ & _ & _ & ->).
      simpl. by rewrite lookup_delete_ne.
  - intros P Q S self w self' w' tr Hne. rewrite set_run.
    intros [= <- _ _]. simpl. by rewrite lookup_insert_ne.
  - intros P self w r self' w' tr Hnone.
    rewrite (get_run_absent _ _ _ Hnone). by intros [= <- <- <- <-].
Qed.

End Cache.
End CacheProps.

(** ** The scan of the response *)

Module ParseProps.
Import AeroCloudDaemonClient ClientRuns.

Lemma startswith_app (p s : pystr) : startswith (p ++ s) p = true.
Proof.
  induction p as [| c p IH]; simpl; [done |].
  by rewrite N.eqb_refl, IH.
Qed.

(** A cut is made at the first separator. *)
Lemma split_from_cut sep m (a b cur : pystr) :
  sep ∉ a →
  split_from sep (S m) cur (a ++ sep :: b)
  = (rev cur ++ a) :: split_from sep m [] b.
Proof.
  revert cur. induction a as [| x a IH]; intros cur Hnotin; simpl.
  - by rewrite N.eqb_refl, app_nil_r.
  - apply not_elem_of_cons in Hnotin as [Hne Hnotin].
    destruct (N.eqb_spec x sep) as [-> | _]; [done |].
    rewrite IH by done. simpl. by rewrite <- app_assoc.
Qed.

Lemma split_from_length_le sep m cur s :
  (length (split_from sep m cur s) ≤ S m)%nat.
Proof.
  revert m cur. induction s as [| c s IH]; intros m cur.
  - destruct m; simpl; lia.
  - destruct m as [| m]; simpl; [lia |].
    destruct (c =? sep); simpl.
    + specialize (IH m []). lia.
    + apply (IH (S m)).
Qed.

(** The fields of a line [STATUS:<code>:<extra>]. *)
Lemma split_status_line (code extra : pystr) :
  colon ∉ code →
  split colon 2 (lit "STATUS:" ++ code ++ colon :: extra)
  = [lit "STATUS"; code; extra].
Proof.
  intros Hcode. unfold split.
  change (lit "STATUS:" ++ code ++ colon :: extra)
    with (lit "STATUS" ++ colon :: (code ++ colon :: extra)).
  rewrite split_from_cut.
  - rewrite split_from_cut by done. by destruct extra.
  - vm_compute. intros H. repeat (apply elem_of_cons in H as [H | H]; [done |]).
    by apply elem_of_nil in H.
Qed.

Lemma accepted_status_line (code extra : pystr) :
  colon ∉ code →
  accepted (lit "STATUS:" ++ code ++ colon :: extra) = true.
Proof.
  intros Hcode. unfold accepted.
  rewrite startswith_app, split_status_line by done. reflexivity.
Qed.

Lemma scan_lines_cons line rest :
  scan_lines (line :: rest) =
    if accepted line then split colon 2 line !! 1%nat else scan_lines rest.
Proof.
  unfold accepted. cbn [scan_lines].
  by destruct (startswith line (lit "STATUS:")), (bool_decide _).
Qed.

Lemma scan_lines_skip line rest :
  accepted line = false → scan_lines (line :: rest) = scan_lines rest.
Proof. intros Hacc. by rewrite scan_lines_cons, Hacc. Qed.

Lemma scan_lines_take line rest :
  accepted line = true →
  scan_lines (line :: rest) = split colon 2 line !! 1%nat ∧
  is_Some (split colon 2 line !! 1%nat).
Proof.
  intros Hacc. rewrite scan_lines_cons, Hacc. split; [done |].
  apply andb_true_iff in Hacc as [_ Hlen].
  apply bool_decide_eq_true in Hlen. apply lookup_lt_is_Some. lia.
Qed.

Lemma scan_lines_none lines :
  scan_lines lines = None ↔ Forall (λ l, accepted l = false) lines.
Proof.
  induction lines as [| line rest IH].
  - split; [by constructor | done].
  - destruct (accepted line) eqn:Hacc.
    + destruct (scan_lines_take line rest Hacc) as [-> [code Hcode]].
      rewrite Hcode. split; [done |].
      intros Hall. apply Forall_cons in Hall as [Hno _]. congruence.
    + rewrite scan_lines_skip by done. rewrite IH.
      split; [by constructor | by intros [_ ?]%Forall_cons].
Qed.

Lemma scan_lines_some lines code :
  scan_lines lines = Some code ↔
  ∃ pre line post,
    lines = pre ++ line :: post ∧
    Forall (λ l, accepted l = false) pre ∧
    accepted line = true ∧
    split colon 2 line !! 1%nat = Some code.
Proof.
  induction lines as [| line rest IH].
  - split; [done |]. intros (pre & l & post & Heq & _). by destruct pre.
  - destruct (accepted line) eqn:Hacc.
    + destruct (scan_lines_take line rest Hacc) as [-> _]. split.
      * intros Hcode. exists [], line, rest. by repeat split.
      * intros (pre & l & post & Heq & Hpre & Hl & Hcode).
        destruct pre as [| l0 pre]; simpl in Heq.
        -- by injection Heq as -> _.
        -- injection Heq as -> _.
           apply Forall_cons in Hpre as [Hno _]. congruence.
    + rewrite scan_lines_skip by done. rewrite IH. split.
      * intros (pre & l & post & -> & Hpre & Hl & Hcode).
        exists (line :: pre), l, post. repeat split; try done.
        by constructor.
      * intros (pre & l & post & Heq & Hpre & Hl & Hcode).
        destruct pre as [| l0 pre]; simpl in Heq.
        -- injection Heq as -> _. congruence.
        -- injection Heq as -> ->.
           apply Forall_cons in Hpre as [_ Hpre].
           by exists pre, l, post.
Qed.

(** C10: a line that begins with [STATUS:] but splits into fewer than
    three fields is passed over, and the scan goes on: the result is the
    second field of the first line, if any, that begins with [STATUS:] and
    has three fields, and absent when there is none.  [STATUS:OK] alone is
    not a status; [STATUS:OK:], with an empty third field, yields [OK]. *)
Theorem short_status_line_is_skipped :
  (∀ line rest,
     startswith line (lit "STATUS:") = true →
     (length (split colon 2 line) < 3)%nat →
     scan_lines (line :: rest) = scan_lines rest) ∧
  (∀ lines code,
     scan_lines lines = Some code ↔
     ∃ pre line post,
       lines = pre ++ line :: post ∧
       Forall (λ l, accepted l = false) pre ∧
       accepted line = true ∧
       split colon 2 line !! 1%nat = Some code) ∧
  (∀ lines,
     scan_lines lines = None ↔ Forall (λ l, accepted l = false) lines) ∧
  length (split colon 2 (lit "STATUS:OK")) = 2%nat ∧
  parse_response (lit "STATUS:OK") = None ∧
  parse_response (lit "STATUS:OK" ++ LF :: lit "STATUS:SYNC:busy")
  = Some (lit "SYNC") ∧
  parse_response (lit "STATUS:OK:") = Some (lit "OK").
Proof.
  split; [| split; [| split]].
  - intros line rest Hst Hlen. apply scan_lines_skip.
    unfold accepted. rewrite Hst. simpl.
    apply bool_decide_eq_false. lia.
  - apply scan_lines_some.
  - apply scan_lines_none.
  - by vm_compute.
Qed.

End ParseProps.

(** ** The daemon client *)

Module ClientProps.
Import AeroCloudDaemonClient ClientRuns.

Section Client.
Context {W : Type} (h : handler W).

Lemma close_and_discard_run self w self' w' tr :
  interp h (close_and_discard self) w = (self', w', tr) →
  close_run self tr self'.
Proof.
  unfold close_and_discard.
  destruct (_socket self) as [s |] eqn:Hs; simpl.
  - intros [= <- _ <-]. by apply close_handle.
  - intros [= <- _ <-]. by apply close_nothing.
Qed.

Lemma open_socket_run self w r self' w' tr :
  interp h (open_socket self) w = ((r, self'), w', tr) →
  attempt_run self tr r self'.
Proof.
  unfold open_socket.
  destruct (_socket_path self) as [[| c p] |] eqn:Hp; simpl.
  - intros [= <- <- _ <-]. apply attempt_no_path. by right.
  - destruct (h (PathExists (c :: p)) w) as [[|] w1]; simpl.
    + destruct (h SocketNew w1) as [[sock | e] w2]; simpl.
      * destruct (h (SetTimeout sock SOCKET_TIMEOUT) w2) as [[u | e] w3];
          simpl.
        -- destruct (h (Connect sock (c :: p)) w3) as [[u' | e] w4]; simpl.
           ++ intros [= <- <- _ <-]. by eapply attempt_connects.
           ++ intros [= <- <- _ <-]. by eapply attempt_connect_fails.
        -- intros [= <- <- _ <-]. by eapply attempt_settimeout_fails.
      * intros [= <- <- _ <-]. by eapply attempt_socket_fails.
    + intros [= <- <- _ <-]. by eapply attempt_path_missing.
  - intros [= <- <- _ <-]. apply attempt_no_path. by left.
Qed.

Lemma _connect_run self w r self' w' tr :
  interp h (_connect self) w = ((r, self'), w', tr) →
  connect_run self tr r self'.
Proof.
  unfold _connect, perform. rewrite interp_bind, interp_vis, !interp_ret.
  cbn [fst snd observe app].
  destruct (Qlt_le_dec _ _) as [Hlt | Hle].
  - rewrite interp_ret. intros [= <- <- _ <-]. by apply connect_suppressed.
  - rewrite interp_bind. cbn [fst snd].
    intros [= Hr _ <-].
    eapply connect_attempt; [done | |].
    + eapply close_and_discard_run. apply interp_eta.
    + eapply open_socket_run. rewrite interp_eta. by rewrite Hr.
Qed.

Lemma on_transport_error_run self w r self' w' tr :
  interp h (on_transport_error self) w = ((r, self'), w', tr) →
  r = Returned None ∧ close_run self tr self'.
Proof.
  unfold on_transport_error. rewrite interp_bind, interp_ret.
  cbn [fst snd]. rewrite app_nil_r. intros [= <- <- _ <-].
  split; [done |]. eapply close_and_discard_run. apply interp_eta.
Qed.

Lemma exchange_run_of file_path s self w r self' w' tr :
  interp h (exchange file_path s self) w = ((r, self'), w', tr) →
  exchange_run file_path s self tr r self'.
Proof.
  unfold exchange, perform.
  destruct (encode_utf8 (request file_path)) as [data |] eqn:Henc.
  - rewrite interp_bind, interp_vis, !interp_ret. cbn [fst snd observe app].
    destruct (h (SendAll s data) w) as [[u | e] w1]; cbn [fst snd].
    + rewrite interp_bind, interp_vis, !interp_ret.
      cbn [fst snd observe app].
      destruct (h (Recv s 1024) w1) as [[received | e] w2]; cbn [fst snd].
      * rewrite interp_ret. intros [= <- <- _ <-]. by eapply exchange_reply.
      * intros [= Hr _ <-].
        destruct (on_transport_error_run self w2 r self'
                    (interp h (on_transport_error self) w2).1.2
                    (interp h (on_transport_error self) w2).2) as [-> Hc].
        { rewrite <- Hr. apply interp_eta. }
        by eapply exchange_recv_fails.
    + intros [= Hr _ <-].
      destruct (on_transport_error_run self w1 r self'
                  (interp h (on_transport_error self) w1).1.2
                  (interp h (on_transport_error self) w1).2) as [-> Hc].
      { rewrite <- Hr. apply interp_eta. }
      by eapply exchange_send_fails.
  - rewrite interp_ret. intros [= <- <- _ <-]. by apply exchange_unencodable.
Qed.

(** A connection attempt that reports success has stored a handle, and
    one that reports failure holds none, when it started without one. *)
Lemma connect_run_handle self tr r self' :
  _socket self = None →
  connect_run self tr r self' →
  if r then ∃ s, _socket self' = Some s else _socket self' = None.
Proof.
  intros Hnone Hrun.
  destruct Hrun as [now Hlt | now tr1 self1 tr2 r self2 Hle Hc Ha].
  - rewrite Hnone. by rewrite bool_decide_eq_false_2 by (by intros ?).
  - assert (_socket self1 = None) as Hs1.
    { destruct Hc as [Hn | s rc Hs]; [exact Hn | reflexivity]. }
    destruct Ha; simpl; eauto.
Qed.

Lemma query_status_run file_path self w r self' w' tr :
  interp h (query_status file_path self) w = ((r, self'), w', tr) →
  query_run file_path self tr r self'.
Proof.
  unfold query_status. rewrite interp_bind.
  destruct (_socket self) as [s |] eqn:Hs.
  - rewrite interp_ret. cbn [fst snd negb app]. rewrite Hs.
    rewrite <- interp_eta.
    intros Hrun. eapply query_reuses_handle; [exact Hs |].
    by eapply exchange_run_of.
  - destruct (interp h (_connect self) w) as [[[ok self1] w1] tr1] eqn:Hrun.
    apply _connect_run in Hrun.
    pose proof (connect_run_handle _ _ _ _ Hs Hrun) as Hh.
    cbn [fst snd]. destruct ok; cbn [negb].
    + destruct Hh as [s Hs1]. rewrite Hs1.
      destruct (interp h (exchange file_path s self1) w1)
        as [[[r2 self2] w2] tr2] eqn:Hx.
      apply exchange_run_of in Hx. cbn [fst snd].
      intros [= <- <- _ <-]. by eapply query_connects.
    + rewrite interp_ret. cbn [fst snd]. intros [= <- <- _ <-].
      rewrite app_nil_r. by eapply query_not_connected.
Qed.

(** [query_status] never lets an [OSError] or an [AttributeError] out:
    the only exception a caller can see is the [UnicodeEncodeError] of a
    path that does not encode. *)
Lemma query_run_raises file_path self tr e self' :
  query_run file_path self tr (Raised e) self' →
  e = UnicodeEncodeError ∧ encode_utf8 (request file_path) = None.
Proof.
  intros Hq.
  inversion Hq as [s tr0 r0 self0 Hs Hx |
                  | tr1 self1 s tr2 r2 self2 Hs Hc Hs1 Hx];
    subst; by inversion Hx.
Qed.

(** *** Traces of an exchange on a live handle *)

Lemma close_run_on_handle s self tr self' :
  _socket self = Some s →
  close_run self tr self' →
  Forall (on_handle s) tr ∧ _socket self' = None ∧
  _socket_path self' = _socket_path self ∧
  _last_connect_attempt self' = _last_connect_attempt self ∧
  ∃ rc, tr = [EClose s rc].
Proof.
  intros Hs [Hn | s' rc Hs']; [congruence |].
  assert (s' = s) as -> by congruence.
  repeat split; [| by exists rc]. by repeat constructor.
Qed.

Lemma exchange_run_on_handle file_path s self tr r self' :
  _socket self = Some s →
  exchange_run file_path s self tr r self' →
  Forall (on_handle s) tr ∧
  _socket_path self' = _socket_path self ∧
  _last_connect_attempt self' = _last_connect_attempt self.
Proof.
  intros Hs Hx.
  destruct Hx as [Henc | data e tr self' Henc Hc | data u e tr self' Henc Hc
                 | data u received Henc].
  - by repeat split.
  - destruct (close_run_on_handle _ _ _ _ Hs Hc) as (Hall & _ & Hp & Hl & _).
    repeat split; [| done | done]. by constructor.
  - destruct (close_run_on_handle _ _ _ _ Hs Hc) as (Hall & _ & Hp & Hl & _).
    repeat split; [| done | done]. by repeat constructor.
  - repeat split. by repeat constructor.
Qed.


(** *** Reconnect suppression *)

Lemma connect_run_head self tr r self' :
  connect_run self tr r self' → ∃ now rest, tr = ETime now :: rest.
Proof. intros [now Hlt | now tr1 self1 tr2 r' self2 Hle Hc Ha]; eauto. Qed.

Lemma connect_run_suppressed self tr r self' now :
  connect_run self tr r self' →
  head tr = Some (ETime now) →
  (now - _last_connect_attempt self < inject_Z RECONNECT_INTERVAL)%Q →
  tr = [ETime now] ∧ self' = self ∧ r = bool_decide (_socket self ≠ None).
Proof.
  intros [now' Hlt | now' tr1 self1 tr2 r' self2 Hle Hc Ha]; simpl;
    intros [= ->] Hwin; [done | lra].
Qed.

(** C6: a connection attempt made less than RECONNECT_INTERVAL after the
    previous one (the clock reading [now] of the attempt is less than 30
    after the recorded one) calls nothing but the clock: no existence
    check, no socket, no connect; it leaves the handle, the path and the
    recorded reading as they were, with or without a handle from the
    previous attempt, and reports whether a handle is held. *)
Theorem suppressed_attempt_changes_nothing self w r self' w' tr now :
  interp h (_connect self) w = ((r, self'), w', tr) →
  head tr = Some (ETime now) →
  (now - _last_connect_attempt self < inject_Z RECONNECT_INTERVAL)%Q →
  tr = [ETime now] ∧ self' = self ∧ r = bool_decide (_socket self ≠ None).
Proof.
  intros Hrun. apply _connect_run in Hrun. by apply connect_run_suppressed.
Qed.


(** *** Replies *)

Lemma query_run_reply file_path self s tr r self' received :
  _socket self = Some s →
  query_run file_path self tr r self' →
  In (ERecv s 1024 (Ok received)) tr →
  r = Returned (parse_response (decode_utf8_ignore received)) ∧ self' = self.
Proof.
  intros Hs Hrun Hin.
  destruct Hrun as [s' tr r self' Hs' Hx | tr self' Hn _
                   | tr1 self1 s' tr2 r self2 Hn _ _ _]; try congruence.
  destruct Hx as [Henc | data e tr self' Henc Hc | data u e tr self' Henc Hc
                 | data u received' Henc].
  - destruct Hin.
  - destruct Hc; simpl in Hin; by repeat destruct Hin as [[=] | Hin].
  - destruct Hc; simpl in Hin; by repeat destruct Hin as [[=] | Hin].
  - simpl in Hin. destruct Hin as [[=] | [Heq | []]]. by simplify_eq.
Qed.

(** C7: on a connected client, when the reply has no line that begins
    with [STATUS:] and yields a status, [query_status] answers absent and
    the client is as before: the handle is neither closed nor dropped,
    and the next query uses that same handle and nothing else. *)
Theorem protocol_miss_keeps_the_handle
    file_path self s w r self' w' tr received :
  _socket self = Some s →
  interp h (query_status file_path self) w = ((r, self'), w', tr) →
  In (ERecv s 1024 (Ok received)) tr →
  Forall (λ line, accepted line = false)
    (splitlines (decode_utf8_ignore received)) →
  r = Returned None ∧ self' = self ∧ _socket self' = Some s ∧
  (∀ rc, ¬ In (EClose s rc) tr) ∧
  (∀ next_path r2 self2 w2 tr2,
     interp h (query_status next_path self') w' = ((r2, self2), w2, tr2) →
     Forall (on_handle s) tr2).
Proof.
  intros Hs Hrun Hin Hmiss.
  apply query_status_run in Hrun.
  destruct (query_run_reply _ _ _ _ _ _ _ Hs Hrun Hin) as [-> ->].
  unfold parse_response. rewrite (proj2 (ParseProps.scan_lines_none _) Hmiss).
  repeat split; [done | |].
  - intros rc Hclose.
    destruct Hrun as [s' tr r self' Hs' Hx | tr self' Hn _
                     | tr1 self1 s' tr2 r self2 Hn _ _ _]; try congruence.
    destruct Hx as [Henc | data e tr self' Henc Hc | data u e tr self' Henc Hc
                   | data u received' Henc].
    + destruct Hin.
    + destruct Hc; simpl in Hin; by repeat destruct Hin as [[=] | Hin].
    + destruct Hc; simpl in Hin; by repeat destruct Hin as [[=] | Hin].
    + simpl in Hclose. by destruct Hclose as [[=] | [[=] | []]].
  - intros next_path r2 self2 w2 tr2 Hnext.
    apply query_status_run in Hnext.
    destruct Hnext as [s' tr2 r2 self2 Hs' Hx | tr2 self2 Hn _
                      | tr1 self1 s' tr2 r2 self2 Hn _ _ _]; try congruence.
    assert (s' = s) as -> by congruence.
    by eapply exchange_run_on_handle.
Qed.

(** C2 (as amended): on a connected client, when the first line of the
    reply that begins with [STATUS:] and has three fields is
    [STATUS:<code>:<extra>], [query_status] returns [<code>]; so a reply
    that is just [STATUS:OK:synced] gives [OK]. *)
Theorem first_status_line_gives_the_code
    file_path self s w r self' w' tr received pre code extra post :
  _socket self = Some s →
  interp h (query_status file_path self) w = ((r, self'), w', tr) →
  In (ERecv s 1024 (Ok received)) tr →
  splitlines (decode_utf8_ignore received)
  = pre ++ (lit "STATUS:" ++ code ++ colon :: extra) :: post →
  Forall (λ line, accepted line = false) pre →
  colon ∉ code →
  r = Returned (Some code).
Proof.
  intros Hs Hrun Hin Hlines Hpre Hcode.
  apply query_status_run in Hrun.
  destruct (query_run_reply _ _ _ _ _ _ _ Hs Hrun Hin) as [-> _].
  f_equal. unfold parse_response. rewrite Hlines.
  apply ParseProps.scan_lines_some.
  exists pre, (lit "STATUS:" ++ code ++ colon :: extra), post.
  repeat split; [done | by apply ParseProps.accepted_status_line |].
  by rewrite ParseProps.split_status_line.
Qed.

(** *** A missing socket path *)

Lemma query_run_suppressed file_path self tr r self' :
  _socket self = None →
  query_run file_path self tr r self' →
  (∀ now, In (ETime now) tr →
     (now - _last_connect_attempt self < inject_Z RECONNECT_INTERVAL)%Q) →
  r = Returned None ∧ self' = self ∧ ∃ now, tr = [ETime now].
Proof.
  intros Hn Hrun Hwin.
  destruct Hrun as [s' tr r self' Hs' Hx | tr self' _ Hc
                   | tr1 self1 s' tr2 r self2 _ Hc _ _]; try congruence.
  - destruct (connect_run_head _ _ _ _ Hc) as (now & rest & Htr).
    destruct (connect_run_suppressed _ _ _ _ now Hc) as (-> & -> & _).
    + by rewrite Htr.
    + apply Hwin. rewrite Htr. by left.
    + eauto.
  - destruct (connect_run_head _ _ _ _ Hc) as (now & rest & Htr).
    destruct (connect_run_suppressed _ _ _ _ now Hc) as (_ & _ & Hr).
    + by rewrite Htr.
    + apply Hwin. rewrite Htr. by left.
    + rewrite Hn in Hr.
      by rewrite bool_decide_eq_false_2 in Hr by (by intros ?).
Qed.

Lemma query_run_path_missing file_path self tr r self' sp :
  _socket self = None →
  query_run file_path self tr r self' →
  In (EPathExists sp false) tr →
  r = Returned None ∧ _socket self' = None ∧
  _socket_path self' = Some sp ∧
  tr = [ETime (_last_connect_attempt self'); EPathExists sp false].
Proof.
  intros Hn Hrun Hin.
  destruct Hrun as [s' tr r self' Hs' Hx | tr self' _ Hc
                   | tr1 self1 s' tr2 r self2 _ Hc Hs1 Hx]; try congruence.
  - inversion Hc as [now Hlt | now tr1 self1 tr2 r' self2 Hle Hcl Ha]; subst.
    + simpl in Hin. by destruct Hin as [[=] | []].
    + inversion Hcl as [Hn1 | s rc Hs]; subst; [| simpl in Hs; congruence].
      inversion Ha; subst; simpl in Hin;
        repeat (destruct Hin as [Hin | Hin]; [try discriminate Hin |]);
        try by destruct Hin.
      by simplify_eq.
  - apply in_app_or in Hin as [Hin | Hin].
    + inversion Hc as [now Hlt | now tr1' self1' tr2' r' self2' Hle Hcl Ha];
        subst.
      * simpl in Hin. by destruct Hin as [[=] | []].
      * inversion Hcl as [Hn1 | s rc Hs]; subst; [| simpl in Hs; congruence].
        inversion Ha; subst; simpl in Hin;
          repeat (destruct Hin as [Hin | Hin]; [try discriminate Hin |]);
          try by destruct Hin.
    + destruct (exchange_run_on_handle _ _ _ _ _ _ Hs1 Hx) as (Hall & _).
      rewrite Forall_forall in Hall. apply list_elem_of_In in Hin.
      by destruct (Hall _ Hin).
Qed.

Lemma query_all_suppressed paths : ∀ self w rs self' w' tr,
  _socket self = None →
  interp h (query_all paths self) w = ((rs, self'), w', tr) →
  (∀ now, In (ETime now) tr →
     (now - _last_connect_attempt self < inject_Z RECONNECT_INTERVAL)%Q) →
  Forall (λ r, r = Returned None) rs ∧ length rs = length paths ∧
  self' = self ∧ Forall is_clock_reading tr.
Proof.
  induction paths as [| p paths IH]; intros self w rs self' w' tr Hn.
  - simpl. intros [= <- <- _ <-] _. by repeat split.
  - cbn [query_all]. rewrite interp_bind.
    destruct (interp h (query_status p self) w)
      as [[[r1 self1] w1] tr1] eqn:Hq.
    cbn [fst snd]. rewrite interp_bind.
    destruct (interp h (query_all paths self1) w1)
      as [[[rs2 self2] w2] tr2] eqn:Hrest.
    cbn [fst snd]. rewrite interp_ret. cbn [fst snd].
    rewrite app_nil_r. intros [= <- <- _ <-] Hwin.
    apply query_status_run in Hq.
    destruct (query_run_suppressed _ _ _ _ _ Hn Hq) as (-> & -> & now & ->).
    { intros now Hin. apply Hwin. apply in_or_app. by left. }
    destruct (IH _ _ _ _ _ _ Hn Hrest) as (Hrs & Hlen & -> & Htr).
    { intros now' Hin. apply Hwin. apply in_or_app. by right. }
    repeat split.
    + by constructor.
    + simpl. by rewrite Hlen.
    + by constructor.
Qed.

(** C5: when the first call finds that the socket path does not exist,
    it answers absent, and so does every call made within 30 seconds of
    that attempt (every later clock reading is less than
    RECONNECT_INTERVAL after the one recorded by the attempt): the first
    call only reads the clock and checks the path, the later ones only
    read the clock, and none creates or connects a socket. *)
Theorem missing_socket_path_answers_unknown
    first_path paths self w r0 self1 w1 tr0 rs self2 w2 tr sp :
  _socket self = None →
  interp h (query_status first_path self) w = ((r0, self1), w1, tr0) →
  In (EPathExists sp false) tr0 →
  interp h (query_all paths self1) w1 = ((rs, self2), w2, tr) →
  (∀ now, In (ETime now) tr →
     (now - _last_connect_attempt self1 < inject_Z RECONNECT_INTERVAL)%Q) →
  r0 = Returned None ∧
  Forall (λ r, r = Returned None) rs ∧ length rs = length paths ∧
  _socket self1 = None ∧ _socket self2 = None ∧
  tr0 = [ETime (_last_connect_attempt self1); EPathExists sp false] ∧
  Forall is_clock_reading tr ∧
  Forall (λ e, ¬ opens_socket e) (tr0 ++ tr).
Proof.
  intros Hn Hfirst Hmissing Hrest Hwin.
  apply query_status_run in Hfirst.
  destruct (query_run_path_missing _ _ _ _ _ _ Hn Hfirst Hmissing)
    as (-> & Hn1 & _ & ->).
  destruct (query_all_suppressed _ _ _ _ _ _ _ Hn1 Hrest Hwin)
    as (Hrs & Hlen & -> & Htr).
  repeat split; try done.
  apply Forall_app. split.
  - repeat constructor; by intros ?.
  - eapply Forall_impl; [exact Htr |]. intros e He Ho. by destruct e.
Qed.

(** *** Failures *)

(** The calls of a connection attempt: none is a send or a receive. *)
Lemma connect_run_no_transfer self tr r self' e :
  connect_run self tr r self' → In e tr →
  match e with ESendAll _ _ _ | ERecv _ _ _ => False | _ => True end.
Proof.
  intros Hc Hin.
  destruct Hc as [now Hlt | now tr1 self1 tr2 r' self2 Hle Hc Ha].
  - simpl in Hin. by destruct Hin as [<- | []].
  - destruct Hin as [<- | Hin]; [done |].
    apply in_app_or in Hin as [Hin | Hin].
    + destruct Hc; simpl in Hin; [done |]. by destruct Hin as [<- | []].
    + destruct Ha; simpl in Hin;
        repeat (destruct Hin as [<- | Hin]; [done |]); by destruct Hin.
Qed.


(** The only exception that leaves [query_status] is the
    [UnicodeEncodeError] of a request that does not encode, raised on a
    live handle before anything is sent. *)
Lemma only_encode_error_escapes file_path self w e self' w' tr :
  interp h (query_status file_path self) w = ((Raised e, self'), w', tr) →
  e = UnicodeEncodeError ∧ encode_utf8 (request file_path) = None.
Proof.
  intros Hrun. apply query_status_run in Hrun. by eapply query_run_raises.
Qed.

End Client.
End ClientProps.

(** ** Scenarios with the test doubles *)

Module Scenarios.
Import AeroCloudStatusCache.

(** [set(some_file, "OK")] on the fresh cache at reading 1000. *)
Lemma set_at_1000 (w : Mock.world) :
  Mock.clock w = 1000%Q →
  interp Mock.daemon (set Mock.some_file (lit "OK") Mock.fresh_cache) w =
    (Mock.cache_with_ok, Mock.advance w, [ETime 1000]).
Proof. intros Hclock. rewrite CacheProps.set_run. simpl. by rewrite Hclock. Qed.


Lemma get_after_ttl_is_absent_and_deletes_witness :
  (inject_Z 5 <= 1007 - 1000)%Q ∧
  (interp Mock.daemon (get Mock.some_file Mock.cache_with_ok)
     (Mock.advance Mock.slow)).1.1.1 = None ∧
  _cache (interp Mock.daemon (get Mock.some_file Mock.cache_with_ok)
            (Mock.advance Mock.slow)).1.1.2
  = delete Mock.some_file (_cache Mock.cache_with_ok) ∧
  _cache (interp Mock.daemon (get Mock.some_file Mock.cache_with_ok)
            (Mock.advance Mock.slow)).1.1.2 !! Mock.some_file = None.
Proof.
  assert (H3 : (inject_Z (_ttl Mock.fresh_cache) <= 1007 - 1000)%Q)
    by (vm_compute; discriminate).
  split; [exact H3 |].
  refine (proj1 (CacheProps.get_after_ttl_is_absent_and_deletes Mock.daemon)
            Mock.some_file (lit "OK") Mock.fresh_cache Mock.slow
            Mock.cache_with_ok (Mock.advance Mock.slow) 1000%Q _ _
            (Mock.advance (Mock.advance Mock.slow)) 1007%Q
            (set_at_1000 Mock.slow eq_refl) _ H3).
  vm_compute. reflexivity.
Defined.

Lemma cache_operations_touch_only_their_path_witness :
  Mock.other_file ≠ Mock.some_file ∧
  _cache (interp Mock.daemon
            (set Mock.other_file (lit "SYNC") Mock.cache_with_ok)
            Mock.quick).1.1
    !! Mock.some_file = _cache Mock.cache_with_ok !! Mock.some_file.
Proof.
  assert (Hne : Mock.other_file ≠ Mock.some_file) by discriminate.
  split; [exact Hne |].
  exact (proj1 (proj1 (proj2 (CacheProps.cache_operations_touch_only_their_path
                                Mock.daemon))
                  Mock.other_file Mock.some_file (lit "SYNC")
                  Mock.cache_with_ok Mock.quick _ _ _ Hne
                  (interp_eta Mock.daemon _ _))).
Defined.

Import AeroCloudDaemonClient ClientRuns.

Lemma short_status_line_is_skipped_witness :
  startswith (lit "STATUS:OK") (lit "STATUS:") = true ∧
  (length (split colon 2 (lit "STATUS:OK")) < 3)%nat ∧
  scan_lines [lit "STATUS:OK"; lit "STATUS:SYNC:busy"]
  = scan_lines [lit "STATUS:SYNC:busy"].
Proof.
  assert (H1 : startswith (lit "STATUS:OK") (lit "STATUS:") = true)
    by reflexivity.
  assert (H2 : (length (split colon 2 (lit "STATUS:OK")) < 3)%nat)
    by (vm_compute; lia).
  split; [exact H1 |]. split; [exact H2 |].
  exact (proj1 ParseProps.short_status_line_is_skipped
           (lit "STATUS:OK") [lit "STATUS:SYNC:busy"] H1 H2).
Defined.

Lemma suppressed_attempt_changes_nothing_witness :
  (1010 - 1000 < inject_Z RECONNECT_INTERVAL)%Q ∧
  (interp Mock.daemon (_connect Mock.connected) (Mock.absent 1010 1)).2
  = [ETime 1010] ∧
  (interp Mock.daemon (_connect Mock.connected) (Mock.absent 1010 1)).1.1.2
  = Mock.connected ∧
  (interp Mock.daemon (_connect Mock.connected) (Mock.absent 1010 1)).1.1.1
  = bool_decide (_socket Mock.connected ≠ None).
Proof.
  assert (Hwin : (1010 - _last_connect_attempt Mock.connected
                  < inject_Z RECONNECT_INTERVAL)%Q) by reflexivity.
  split; [exact Hwin |].
  refine (ClientProps.suppressed_attempt_changes_nothing Mock.daemon
            Mock.connected (Mock.absent 1010 1) _ _ _ _ 1010%Q
            (interp_eta_pair Mock.daemon _ _) _ Hwin).
  vm_compute. reflexivity.
Defined.


Lemma protocol_miss_keeps_the_handle_witness :
  Forall (λ line, accepted line = false)
    (splitlines (decode_utf8_ignore Mock.reply_garbage)) ∧
  (interp Mock.daemon (query_status Mock.some_file Mock.connected)
     (Mock.replying 2000 1 (Ok Mock.reply_garbage))).1.1.1
  = Returned None ∧
  (interp Mock.daemon (query_status Mock.some_file Mock.connected)
     (Mock.replying 2000 1 (Ok Mock.reply_garbage))).1.1.2
  = Mock.connected.
Proof.
  assert (Hmiss : Forall (λ line, accepted line = false)
                    (splitlines (decode_utf8_ignore Mock.reply_garbage)))
    by (vm_compute; repeat constructor).
  split; [exact Hmiss |].
  assert (Hrecv :
    In (ERecv 3 1024 (Ok Mock.reply_garbage))
      (interp Mock.daemon (query_status Mock.some_file Mock.connected)
         (Mock.replying 2000 1 (Ok Mock.reply_garbage))).2)
    by (vm_compute; right; left; reflexivity).
  destruct (ClientProps.protocol_miss_keeps_the_handle Mock.daemon
              Mock.some_file Mock.connected 3
              (Mock.replying 2000 1 (Ok Mock.reply_garbage)) _ _ _ _
              Mock.reply_garbage eq_refl (interp_eta_pair Mock.daemon _ _)
              Hrecv Hmiss)
    as (Hr & Hself & _).
  exact (conj Hr Hself).
Defined.

Lemma first_status_line_gives_the_code_witness :
  splitlines (decode_utf8_ignore Mock.reply_ok)
  = [] ++ (lit "STATUS:" ++ lit "OK" ++ colon :: lit "synced") :: [] ∧
  (colon ∉ lit "OK") ∧
  (interp Mock.daemon (query_status Mock.some_file Mock.connected)
     (Mock.replying 2000 1 (Ok Mock.reply_ok))).1.1.1
  = Returned (Some (lit "OK")).
Proof.
  assert (Hlines : splitlines (decode_utf8_ignore Mock.reply_ok)
                   = [] ++ (lit "STATUS:" ++ lit "OK" ++ colon :: lit "synced")
                        :: []) by (vm_compute; reflexivity).
  assert (Hcode : colon ∉ lit "OK")
    by (apply (bool_decide_unpack _); vm_compute; exact I).
  assert (Hrecv :
    In (ERecv 3 1024 (Ok Mock.reply_ok))
      (interp Mock.daemon (query_status Mock.some_file Mock.connected)
         (Mock.replying 2000 1 (Ok Mock.reply_ok))).2)
    by (vm_compute; right; left; reflexivity).
  split; [exact Hlines |]. split; [exact Hcode |].
  exact (ClientProps.first_status_line_gives_the_code Mock.daemon
           Mock.some_file Mock.connected 3
           (Mock.replying 2000 1 (Ok Mock.reply_ok)) _ _ _ _
           Mock.reply_ok [] (lit "OK") (lit "synced") []
           eq_refl (interp_eta_pair Mock.daemon _ _)
           Hrecv Hlines (Forall_nil_2 _) Hcode).
Defined.

(** C2, as the claim states it, fails: the reply below contains the line
    [STATUS:OK:synced], after the line [STATUS:SYNC:busy], and the
    connected client returns [SYNC]. *)
Lemma status_ok_line_after_another_counterexample :
  _socket Mock.connected = Some 3 ∧
  In (ERecv 3 1024 (Ok Mock.reply_two_lines))
    (interp Mock.daemon (query_status Mock.some_file Mock.connected)
       (Mock.replying 2000 1 (Ok Mock.reply_two_lines))).2 ∧
  In (lit "STATUS:OK:synced")
    (splitlines (decode_utf8_ignore Mock.reply_two_lines)) ∧
  (interp Mock.daemon (query_status Mock.some_file Mock.connected)
     (Mock.replying 2000 1 (Ok Mock.reply_two_lines))).1.1.1
  = Returned (Some (lit "SYNC")) ∧
  (interp Mock.daemon (query_status Mock.some_file Mock.connected)
     (Mock.replying 2000 1 (Ok Mock.reply_two_lines))).1.1.1
  ≠ Returned (Some (lit "OK")).
Proof.
  split; [reflexivity |].
  split; [vm_compute; right; left; reflexivity |].
  split; [vm_compute; right; left; reflexivity |].
  split; [vm_compute; reflexivity |].
  vm_compute. discriminate.
Qed.

Lemma missing_socket_path_answers_unknown_witness :
  In (EPathExists Mock.socket_path false)
    (interp Mock.daemon (query_status Mock.some_file Mock.disconnected)
       (Mock.absent 2000 1)).2 ∧
  Forall (λ r, r = Returned None)
    (interp Mock.daemon
       (query_all [Mock.other_file; Mock.some_file; Mock.other_file]
          (with_last_connect_attempt 2000 Mock.disconnected))
       (Mock.advance (Mock.absent 2000 1))).1.1.1 ∧
  length
    (interp Mock.daemon
       (query_all [Mock.other_file; Mock.some_file; Mock.other_file]
          (with_last_connect_attempt 2000 Mock.disconnected))
       (Mock.advance (Mock.absent 2000 1))).1.1.1 = 3%nat.
Proof.
  assert (Hmissing :
    In (EPathExists Mock.socket_path false)
      (interp Mock.daemon (query_status Mock.some_file Mock.disconnected)
         (Mock.absent 2000 1)).2)
    by (vm_compute; right; left; reflexivity).
  assert (Hfirst :
    interp Mock.daemon (query_status Mock.some_file Mock.disconnected)
      (Mock.absent 2000 1)
    = ((Returned None, with_last_connect_attempt 2000 Mock.disconnected),
       Mock.advance (Mock.absent 2000 1),
       (interp Mock.daemon (query_status Mock.some_file Mock.disconnected)
          (Mock.absent 2000 1)).2))
    by (vm_compute; reflexivity).
  split; [exact Hmissing |].
  destruct (ClientProps.missing_socket_path_answers_unknown Mock.daemon
              Mock.some_file [Mock.other_file; Mock.some_file; Mock.other_file]
              Mock.disconnected (Mock.absent 2000 1) _ _ _ _ _ _ _ _
              Mock.socket_path eq_refl Hfirst Hmissing
              (interp_eta_pair Mock.daemon _ _))
    as (_ & Hrs & Hlen & _).
  - intros now Hin. vm_compute in Hin.
    destruct Hin as [[= <-] | [[= <-] | [[= <-] | []]]]; reflexivity.
  - exact (conj Hrs Hlen).
Defined.

(** The socket path a new client resolves when [XDG_RUNTIME_DIR] is not
    set, for the user 1000. *)
Example init_without_runtime_dir :
  (interp Mock.daemon init (Mock.absent 2000 1)).1.1
  = {| _socket := None;
       _socket_path := Some (lit "/tmp/aerocloud-1000/socket");
       _last_connect_attempt := 0 |}.
Proof. vm_compute. reflexivity. Qed.

(** C1 fails on a path that UTF-8 cannot encode: on a connected client
    [request.encode('utf-8')] raises [UnicodeEncodeError] inside the [try]
    block, the [except] clause does not list it, and the caller sees the
    exception; nothing was sent and the handle is kept. *)
Theorem unencodable_path_raises_to_the_caller :
  encode_utf8 (request Mock.unencodable_file) = None ∧
  interp Mock.daemon (query_status Mock.unencodable_file Mock.connected)
    (Mock.replying 2000 1 (Ok Mock.reply_ok))
  = ((Raised UnicodeEncodeError, Mock.connected),
     Mock.replying 2000 1 (Ok Mock.reply_ok), []).
Proof. split; vm_compute; reflexivity. Qed.

End Scenarios.

(** * Further properties *)

(** ** UTF-8 *)

Module CodecProps.

Lemma to_N_byte_of_N n : n < 256 → Byte.to_N (byte_of_N n) = n.
Proof.
  intros Hn. unfold byte_of_N.
  destruct (Byte.of_N n) as [b |] eqn:Hb.
  - by apply Byte.to_of_N.
  - apply Byte.of_N_None_iff in Hb. lia.
Qed.

Lemma land_shiftl_low h n l : l < 2 ^ n → N.land (N.shiftl h n) l = 0.
Proof.
  intros Hl. apply N.bits_inj. intros i.
  rewrite N.land_spec, N.bits_0.
  destruct (N.lt_ge_cases i n) as [Hlt | Hge].
  - by rewrite N.shiftl_spec_low.
  - assert (N.testbit l i = false) as ->; [| apply andb_false_r].
    destruct (N.eq_dec l 0) as [-> | Hne]; [apply N.bits_0 |].
    apply N.bits_above_log2.
    assert (N.log2 l < n) by (apply N.log2_lt_pow2; lia). lia.
Qed.

(** Putting [l] into the low [n] bits under [h] is an addition. *)
Lemma lor_shiftl_low h n l :
  l < 2 ^ n → N.lor (N.shiftl h n) l = h * 2 ^ n + l.
Proof.
  intros Hl.
  rewrite <- N.lxor_lor, <- N.add_nocarry_lxor, N.shiftl_mul_pow2;
    auto using land_shiftl_low.
Qed.

Lemma lor_C0 x : x < 64 → N.lor 0xC0 x = 192 + x.
Proof.
  intros Hx. change 0xC0 with (N.shiftl 3 6).
  by rewrite lor_shiftl_low.
Qed.

Lemma lor_80 x : x < 64 → N.lor 0x80 x = 128 + x.
Proof.
  intros Hx. change 0x80 with (N.shiftl 2 6).
  by rewrite lor_shiftl_low.
Qed.

Lemma lor_E0 x : x < 16 → N.lor 0xE0 x = 224 + x.
Proof.
  intros Hx. change 0xE0 with (N.shiftl 14 4).
  by rewrite lor_shiftl_low.
Qed.

Lemma lor_F0 x : x < 8 → N.lor 0xF0 x = 240 + x.
Proof.
  intros Hx. change 0xF0 with (N.shiftl 30 3).
  by rewrite lor_shiftl_low.
Qed.

Lemma shiftr_6 c : N.shiftr c 6 = c / 64.
Proof. by rewrite N.shiftr_div_pow2. Qed.
Lemma shiftr_12 c : N.shiftr c 12 = c / 4096.
Proof. by rewrite N.shiftr_div_pow2. Qed.
Lemma shiftr_18 c : N.shiftr c 18 = c / 262144.
Proof. by rewrite N.shiftr_div_pow2. Qed.

Lemma land_3F c : N.land c 0x3F = c mod 64.
Proof. change 0x3F with (N.ones 6). by rewrite N.land_ones. Qed.
Lemma land_1F c : N.land c 0x1F = c mod 32.
Proof. change 0x1F with (N.ones 5). by rewrite N.land_ones. Qed.
Lemma land_0F c : N.land c 0x0F = c mod 16.
Proof. change 0x0F with (N.ones 4). by rewrite N.land_ones. Qed.
Lemma land_07 c : N.land c 0x07 = c mod 8.
Proof. change 0x07 with (N.ones 3). by rewrite N.land_ones. Qed.

(** The bytes of a code point, by arithmetic. *)
Lemma encode_cp_arith c :
  encode_cp c =
    if c <? 0x80 then Some [c]
    else if c <? 0x800 then Some [192 + c / 64; 128 + c mod 64]
    else if is_surrogate c then None
    else if c <? 0x10000 then
      Some [224 + c / 4096; 128 + (c / 64) mod 64; 128 + c mod 64]
    else if c <? 0x110000 then
      Some [240 + c / 262144; 128 + (c / 4096) mod 64;
            128 + (c / 64) mod 64; 128 + c mod 64]
    else None.
Proof.
  unfold encode_cp. rewrite !shiftr_6, !shiftr_12, !shiftr_18, !land_3F.
  rewrite !lor_80 by (apply N.mod_lt; lia).
  destruct (N.ltb_spec c 0x80); [done |].
  destruct (N.ltb_spec c 0x800).
  { rewrite lor_C0; [done |]. apply N.Div0.div_lt_upper_bound; lia. }
  destruct (is_surrogate c); [done |].
  destruct (N.ltb_spec c 0x10000).
  { rewrite lor_E0; [done |]. apply N.Div0.div_lt_upper_bound; lia. }
  destruct (N.ltb_spec c 0x110000); [| done].
  rewrite lor_F0; [done |]. apply N.Div0.div_lt_upper_bound; lia.
Qed.

(** One step of the decoder. *)
Lemma decode_cons x0 r0 :
  decode_utf8_ignore (x0 :: r0) =
    let b0 := Byte.to_N x0 in
    if b0 <? 0x80 then b0 :: decode_utf8_ignore r0
    else if in_range 0xC2 0xDF b0 then
      match r0 with
      | x1 :: r1 =>
          let b1 := Byte.to_N x1 in
          if is_cont b1
          then N.lor (N.shiftl (N.land b0 0x1F) 6) (low6 b1)
                 :: decode_utf8_ignore r1
          else decode_utf8_ignore r0
      | _ => decode_utf8_ignore r0
      end
    else if in_range 0xE0 0xEF b0 then
      match r0 with
      | x1 :: (x2 :: r2) =>
          let b1 := Byte.to_N x1 in
          let b2 := Byte.to_N x2 in
          if second_ok b0 b1 && is_cont b2
          then N.lor (N.shiftl (N.land b0 0x0F) 12)
                 (N.lor (N.shiftl (low6 b1) 6) (low6 b2))
                 :: decode_utf8_ignore r2
          else decode_utf8_ignore r0
      | _ => decode_utf8_ignore r0
      end
    else if in_range 0xF0 0xF4 b0 then
      match r0 with
      | x1 :: (x2 :: (x3 :: r3)) =>
          let b1 := Byte.to_N x1 in
          let b2 := Byte.to_N x2 in
          let b3 := Byte.to_N x3 in
          if second_ok b0 b1 && is_cont b2 && is_cont b3
          then N.lor (N.shiftl (N.land b0 0x07) 18)
                 (N.lor (N.shiftl (low6 b1) 12)
                    (N.lor (N.shiftl (low6 b2) 6) (low6 b3)))
                 :: decode_utf8_ignore r3
          else decode_utf8_ignore r0
      | _ => decode_utf8_ignore r0
      end
    else decode_utf8_ignore r0.
Proof. by destruct r0. Qed.

Ltac decide_bytes :=
  unfold second_ok, low6; unfold is_cont; unfold in_range;
  repeat (match goal with
          | |- context [?a <? ?b] => destruct (N.ltb_spec a b)
          | |- context [?a <=? ?b] => destruct (N.leb_spec a b)
          | |- context [?a =? ?b] => destruct (N.eqb_spec a b)
          end; try (exfalso; zify; lia); cbn beta iota zeta delta [andb]).

Lemma decode_1 b rest :
  b < 0x80 →
  decode_utf8_ignore (byte_of_N b :: rest) = b :: decode_utf8_ignore rest.
Proof.
  intros Hb. rewrite decode_cons. cbn beta iota zeta.
  rewrite to_N_byte_of_N by lia.
  by decide_bytes.
Qed.

Lemma decode_2 hi lo rest :
  2 ≤ hi < 32 → lo < 64 →
  decode_utf8_ignore (byte_of_N (192 + hi) :: byte_of_N (128 + lo) :: rest)
  = (hi * 64 + lo) :: decode_utf8_ignore rest.
Proof.
  intros Hhi Hlo. rewrite decode_cons. cbn beta iota zeta.
  rewrite !to_N_byte_of_N by lia.
  decide_bytes. f_equal.
  rewrite land_1F, land_3F.
  replace ((192 + hi) mod 32) with hi by (zify; lia).
  replace ((128 + lo) mod 64) with lo by (zify; lia).
  rewrite lor_shiftl_low; [reflexivity | exact Hlo].
Qed.

Lemma decode_3 a b d rest :
  a < 16 → b < 64 → d < 64 →
  (a = 0 → 32 ≤ b) → (a = 13 → b < 32) →
  decode_utf8_ignore
    (byte_of_N (224 + a) :: byte_of_N (128 + b) :: byte_of_N (128 + d)
       :: rest)
  = (a * 4096 + b * 64 + d) :: decode_utf8_ignore rest.
Proof.
  intros Ha Hb Hd Hlow Hsur. rewrite decode_cons. cbn beta iota zeta.
  rewrite !to_N_byte_of_N by lia.
  decide_bytes; f_equal;
    rewrite land_0F, !land_3F;
    replace ((224 + a) mod 16) with a by (zify; lia);
    replace ((128 + b) mod 64) with b by (zify; lia);
    replace ((128 + d) mod 64) with d by (zify; lia);
    rewrite (lor_shiftl_low b 6 d) by exact Hd;
    rewrite lor_shiftl_low by (change (2 ^ 12) with 4096;
                               change (2 ^ 6) with 64; lia);
    change (2 ^ 12) with 4096; change (2 ^ 6) with 64; lia.
Qed.

Lemma decode_4 a b d e rest :
  a < 5 → b < 64 → d < 64 → e < 64 →
  (a = 0 → 16 ≤ b) → (a = 4 → b < 16) →
  decode_utf8_ignore
    (byte_of_N (240 + a) :: byte_of_N (128 + b) :: byte_of_N (128 + d)
       :: byte_of_N (128 + e) :: rest)
  = (a * 262144 + b * 4096 + d * 64 + e) :: decode_utf8_ignore rest.
Proof.
  intros Ha Hb Hd He Hlow Hhigh. rewrite decode_cons. cbn beta iota zeta.
  rewrite !to_N_byte_of_N by lia.
  decide_bytes; f_equal;
    rewrite land_07, !land_3F;
    replace ((240 + a) mod 8) with a by (zify; lia);
    replace ((128 + b) mod 64) with b by (zify; lia);
    replace ((128 + d) mod 64) with d by (zify; lia);
    replace ((128 + e) mod 64) with e by (zify; lia);
    rewrite (lor_shiftl_low d 6 e) by exact He;
    rewrite (lor_shiftl_low b 12) by (change (2 ^ 12) with 4096;
                                      change (2 ^ 6) with 64; lia);
    rewrite lor_shiftl_low by (change (2 ^ 18) with 262144;
                               change (2 ^ 12) with 4096;
                               change (2 ^ 6) with 64; lia);
    change (2 ^ 18) with 262144; change (2 ^ 12) with 4096;
    change (2 ^ 6) with 64; lia.
Qed.

(** Decoding the bytes of one code point gives it back. *)
Lemma decode_encode_cp c bs rest :
  encode_cp c = Some bs →
  decode_utf8_ignore (map byte_of_N bs ++ rest)
  = c :: decode_utf8_ignore rest.
Proof.
  rewrite encode_cp_arith. unfold is_surrogate.
  destruct (N.ltb_spec c 0x80).
  { intros [= <-]. by apply decode_1. }
  destruct (N.ltb_spec c 0x800).
  { intros [= <-]. cbn [map app].
    rewrite decode_2 by (zify; lia). f_equal. zify; lia. }
  destruct ((0xD800 <=? c) && (c <? 0xE000)) eqn:Hsur; [done |].
  apply andb_false_iff in Hsur. rewrite N.leb_gt, N.ltb_ge in Hsur.
  destruct (N.ltb_spec c 0x10000).
  { intros [= <-]. cbn [map app].
    rewrite decode_3 by (zify; lia). f_equal. zify; lia. }
  destruct (N.ltb_spec c 0x110000); [| done].
  intros [= <-]. cbn [map app].
  rewrite decode_4 by (zify; lia). f_equal. zify; lia.
Qed.

Lemma decode_encode_app s : ∀ bs rest,
  encode_utf8 s = Some bs →
  decode_utf8_ignore (bs ++ rest) = s ++ decode_utf8_ignore rest.
Proof.
  induction s as [| c s IH]; intros bs rest; cbn [encode_utf8].
  - by intros [= <-].
  - destruct (encode_cp c) as [cb |] eqn:Hc; [| done].
    destruct (encode_utf8 s) as [sb |] eqn:Hs; [| done].
    intros [= <-]. rewrite <- app_assoc.
    rewrite (decode_encode_cp _ _ _ Hc). cbn [app]. f_equal. by apply IH.
Qed.

Lemma encode_cp_None c :
  encode_cp c = None ↔ is_surrogate c = true ∨ 0x110000 ≤ c.
Proof.
  unfold encode_cp, is_surrogate.
  destruct (N.ltb_spec c 0x80), (N.ltb_spec c 0x800),
    (N.leb_spec 0xD800 c), (N.ltb_spec c 0xE000),
    (N.ltb_spec c 0x10000), (N.ltb_spec c 0x110000);
    cbn [andb]; split; try done; try lia; intros [? | ?]; try done; lia.
Qed.

Lemma encode_utf8_None s :
  encode_utf8 s = None ↔
  Exists (λ c, is_surrogate c = true ∨ 0x110000 ≤ c) s.
Proof.
  induction s as [| c s IH]; cbn [encode_utf8].
  - split; [done | by intros ?%Exists_nil].
  - rewrite Exists_cons, <- IH, <- encode_cp_None.
    destruct (encode_cp c), (encode_utf8 s); intuition congruence.
Qed.

Lemma encode_utf8_app a b :
  encode_utf8 (a ++ b) =
    match encode_utf8 a, encode_utf8 b with
    | Some x, Some y => Some (x ++ y)
    | _, _ => None
    end.
Proof.
  induction a as [| c a IH]; cbn [app encode_utf8].
  - by destruct (encode_utf8 b).
  - rewrite IH.
    destruct (encode_cp c), (encode_utf8 a), (encode_utf8 b); try done.
    by rewrite app_assoc.
Qed.

(** X1: permissive decoding loses nothing of text that was encoded:
    whenever [s.encode('utf-8')] succeeds with the bytes [bs],
    [bs.decode('utf-8', errors='ignore')] is [s] again. *)
Theorem decode_inverts_encode s bs :
  encode_utf8 s = Some bs → decode_utf8_ignore bs = s.
Proof.
  intros Henc. rewrite <- (app_nil_r bs).
  rewrite (decode_encode_app _ _ [] Henc). apply app_nil_r.
Qed.

(** [str.encode('utf-8')] fails on a string exactly when it holds a
    surrogate code point (U+D800..U+DFFF). *)
Lemma encode_fails_iff_surrogate s :
  Forall (λ c, c < 0x110000) s →
  (encode_utf8 s = None ↔ Exists (λ c, is_surrogate c = true) s).
Proof.
  intros Hvalid. rewrite encode_utf8_None.
  rewrite Forall_forall in Hvalid. rewrite !Exists_exists.
  split.
  - intros (c & Hin & [Hsur | Hbig]); [by exists c |].
    specialize (Hvalid c Hin). lia.
  - intros (c & Hin & Hsur). exists c. by split; [| left].
Qed.

End CodecProps.

Module WireProps.
Import AeroCloudDaemonClient ClientRuns CodecProps RequestParts.

Lemma request_parts file_path :
  request file_path = request_head ++ file_path ++ request_tail.
Proof. by vm_compute. Qed.

Lemma request_inj p q : request p = request q → p = q.
Proof.
  rewrite !request_parts. intros Heq.
  apply app_inv_head in Heq. by apply app_inv_tail in Heq.
Qed.

Lemma request_encodes file_path :
  encode_utf8 (request file_path) = None ↔ encode_utf8 file_path = None.
Proof.
  rewrite request_parts, !encode_utf8_app.
  change (encode_utf8 request_head)
    with (Some (map byte_of_N request_head)).
  change (encode_utf8 request_tail)
    with (Some (map byte_of_N request_tail)).
  by destruct (encode_utf8 file_path).
Qed.

Section Wire.
Context {W : Type} (h : handler W).

(** X2: whatever the environment does and whatever state the client is
    in, [query_status] returns (a status or None) and raises nothing when
    the path holds no surrogate code point. *)
Theorem clean_path_never_raises file_path self w r self' w' tr :
  Forall (λ c, c < 0x110000 ∧ is_surrogate c = false) file_path →
  interp h (query_status file_path self) w = ((r, self'), w', tr) →
  ∃ status, r = Returned status.
Proof.
  intros Hclean Hrun. destruct r as [status | e]; [by exists status |].
  apply ClientProps.only_encode_error_escapes in Hrun as [_ Henc].
  apply (proj1 (request_encodes _)) in Henc.
  apply (proj1 (encode_utf8_None _)) in Henc.
  apply Exists_exists in Henc as (c & Hin & Hbad).
  rewrite Forall_forall in Hclean.
  destruct (Hclean c Hin) as [Hlt Hns].
  destruct Hbad as [Hsur | Hbig]; [congruence | lia].
Qed.

(** X3: on a client that holds a handle, a path with a surrogate code
    point makes [query_status] raise [UnicodeEncodeError] before anything
    is sent: no call is made and the client keeps its handle. *)
Theorem surrogate_path_raises_before_sending
    file_path self s w r self' w' tr :
  _socket self = Some s →
  Exists (λ c, is_surrogate c = true) file_path →
  interp h (query_status file_path self) w = ((r, self'), w', tr) →
  r = Raised UnicodeEncodeError ∧ tr = [] ∧ self' = self ∧ w' = w.
Proof.
  intros Hs Hsur.
  assert (Henc : encode_utf8 (request file_path) = None).
  { apply request_encodes, encode_utf8_None.
    eapply Exists_impl; [exact Hsur |]. by left. }
  unfold query_status. rewrite Hs, interp_bind, interp_ret.
  cbn [fst snd negb]. rewrite Hs. unfold exchange. rewrite Henc, interp_ret.
  by intros [= <- <- <- <-].
Qed.

(** X4: the bytes of a request determine the path: two queries that
    send the same data ask for the same path. *)
Theorem same_bytes_same_path p q data :
  encode_utf8 (request p) = Some data →
  encode_utf8 (request q) = Some data →
  p = q.
Proof.
  intros Hp Hq. apply request_inj.
  pose proof (decode_encode_app _ _ [] Hp) as Hdp.
  pose proof (decode_encode_app _ _ [] Hq) as Hdq.
  rewrite !app_nil_r in Hdp, Hdq. congruence.
Qed.

End Wire.
End WireProps.

(** ** The status a reply yields *)

Module StatusShape.
Import AeroCloudDaemonClient ClientRuns TraceShapes.

Lemma startswith_prefix (s p : pystr) :
  startswith s p = true → ∃ rest, s = p ++ rest.
Proof.
  revert s. induction p as [| c p IH]; intros s; cbn [startswith].
  - by exists s.
  - destruct s as [| x s]; [done |].
    intros [Hc Hp]%andb_true_iff. apply N.eqb_eq in Hc as ->.
    destruct (IH _ Hp) as [rest ->]. by exists rest.
Qed.

(** Without separator there is nothing to cut. *)
Lemma split_from_whole sep m (cur s : pystr) :
  sep ∉ s → split_from sep m cur s = [rev cur ++ s].
Proof.
  revert m cur. induction s as [| x s IH]; intros m cur Hnotin.
  - destruct m; cbn [split_from]; by rewrite ?app_nil_r.
  - apply not_elem_of_cons in Hnotin as [Hne Hnotin].
    destruct m as [| m]; cbn [split_from]; [done |].
    destruct (N.eqb_spec x sep) as [-> | _]; [done |].
    rewrite IH by done. cbn [rev]. by rewrite <- app_assoc.
Qed.

(** The lines the scan accepts are those of the shape
    [STATUS:<code>:<extra>], and their second field is [<code>]. *)
Lemma accepted_shape line :
  accepted line = true →
  ∃ code extra,
    line = lit "STATUS:" ++ code ++ colon :: extra ∧ (colon ∉ code) ∧
    split colon 2 line !! 1%nat = Some code.
Proof.
  intros [Hst Hlen]%andb_true_iff.
  apply startswith_prefix in Hst as [rest ->].
  apply bool_decide_eq_true in Hlen.
  destruct (decide (colon ∈ rest)) as [Hin | Hnotin].
  - apply list_elem_of_split_l in Hin as (code & extra & -> & Hcode).
    exists code, extra. split; [done |]. split; [done |].
    by rewrite ParseProps.split_status_line.
  - exfalso. revert Hlen. unfold split.
    change (lit "STATUS:" ++ rest) with (lit "STATUS" ++ colon :: rest).
    rewrite ParseProps.split_from_cut.
    + rewrite split_from_whole by done. cbn [length]. lia.
    + vm_compute. intros H.
      repeat (apply elem_of_cons in H as [H | H]; [done |]).
      by apply elem_of_nil in H.
Qed.

Lemma splitlines_from_no_linebreak n : ∀ s cur,
  (length s ≤ n)%nat →
  no_linebreak cur →
  Forall no_linebreak (splitlines_from cur s).
Proof.
  induction n as [| n IH]; intros s cur Hlen Hcur.
  - destruct s; [| simpl in Hlen; lia]. cbn [splitlines_from].
    destruct cur; [done |]. repeat constructor. by apply Forall_rev.
  - destruct s as [| c s]; cbn [splitlines_from].
    + destruct cur; [done |]. repeat constructor. by apply Forall_rev.
    + simpl in Hlen. destruct (is_linebreak c) eqn:Hc.
      * constructor; [by apply Forall_rev |].
        destruct s as [| c' s'].
        -- apply IH; [simpl; lia | exact (Forall_nil_2 _)].
        -- destruct ((c =? 0x0D) && (c' =? 0x0A));
             (apply IH; [simpl in *; lia | exact (Forall_nil_2 _)]).
      * apply IH; [lia |]. by constructor.
Qed.

Lemma splitlines_no_linebreak s : Forall no_linebreak (splitlines s).
Proof.
  apply (splitlines_from_no_linebreak (length s));
    [done | exact (Forall_nil_2 _)].
Qed.

(** X5: a status that [parse_response] returns is the [<code>] of a line
    [STATUS:<code>:<extra>] of the response; it holds no colon and no
    line boundary. *)
Theorem parsed_status_shape response code :
  parse_response response = Some code →
  (colon ∉ code) ∧ no_linebreak code ∧
  ∃ extra, lit "STATUS:" ++ code ++ colon :: extra ∈ splitlines response.
Proof.
  unfold parse_response. intros Hscan.
  apply ParseProps.scan_lines_some in Hscan
    as (pre & line & post & Hlines & _ & Hacc & Hcode).
  apply accepted_shape in Hacc as (code' & extra & -> & Hnotin & Hcode').
  assert (Some code' = Some code) as [= ->]
    by (etrans; [symmetry; exact Hcode' | exact Hcode]).
  split; [done |].
  assert (Hin : lit "STATUS:" ++ code ++ colon :: extra
                ∈ splitlines response).
  { rewrite Hlines. apply elem_of_app. right. by left. }
  split; [| by exists extra].
  pose proof (splitlines_no_linebreak response) as Hall.
  rewrite Forall_forall in Hall. specialize (Hall _ Hin).
  apply Forall_app in Hall as [_ Hall].
  by apply Forall_app in Hall as [Hall _].
Qed.

End StatusShape.

(** ** More on the status cache *)

Module CacheMore.
Import AeroCloudStatusCache.

Section Cache.
Context {W : Type} (h : handler W).


(** X7: how the number of entries moves: [set] adds one entry for a new
    path and none for a path already there; [get] removes one entry when
    it finds a stale one and otherwise leaves the map as it is. *)
Theorem cache_size_accounting :
  (∀ P status self w self' w' tr,
     interp h (set P status self) w = (self', w', tr) →
     match _cache self !! P with
     | Some _ => size (_cache self') = size (_cache self)
     | None => size (_cache self') = S (size (_cache self))
     end) ∧
  (∀ P self w r self' w' tr,
     interp h (get P self) w = (r, self', w', tr) →
     match r, _cache self !! P with
     | None, Some _ => S (size (_cache self')) = size (_cache self)
     | _, _ => _cache self' = _cache self
     end).
Proof.
  split.
  - intros P status self w self' w' tr. rewrite CacheProps.set_run.
    intros [= <- _ _]. cbn [_cache].
    destruct (_cache self !! P) as [entry |] eqn:Hl.
    + by apply map_size_insert_Some.
    + by apply map_size_insert_None.
  - intros P self w r self' w' tr Hget.
    apply CacheProps.get_cases in Hget
      as [(Hnone & -> & -> & _) | [Hfresh | Hstale]].
    + by rewrite Hnone.
    + by destruct Hfresh as (st & ts & now & Hl & _ & _ & -> & ->).
    + destruct Hstale as (st & ts & now & Hl & _ & _ & -> & ->).
      rewrite Hl. cbn [_cache].
      rewrite <- (insert_id (_cache self) P _ Hl) at 2.
      rewrite <- insert_delete_eq.
      by rewrite map_size_insert_None by apply lookup_delete_eq.
Qed.


End Cache.
End CacheMore.

(** ** More on the daemon client *)

Module ClientMore.
Import AeroCloudDaemonClient ClientRuns TraceShapes.

Lemma close_run_keeps self tr self' :
  close_run self tr self' →
  _socket self' = None ∧ _socket_path self' = _socket_path self ∧
  _last_connect_attempt self' = _last_connect_attempt self.
Proof. by intros [Hn | s rc Hs]. Qed.

Lemma attempt_run_keeps self tr r self' :
  attempt_run self tr r self' →
  _socket_path self' = _socket_path self ∧
  _last_connect_attempt self' = _last_connect_attempt self ∧
  (r = false → self' = self).
Proof. by intros []. Qed.

(** A connect is the last call of an attempt, right after the positive
    existence check, the creation of the socket and the setting of its
    timeout. *)
Lemma attempt_run_connect self tr r self' sock p rc :
  attempt_run self tr r self' →
  In (EConnect sock p rc) tr →
  _socket_path self = Some p ∧
  ∃ u, tr = [EPathExists p true; ESocketNew (Ok sock);
             ESetTimeout sock SOCKET_TIMEOUT (Ok u); EConnect sock p rc].
Proof.
  intros Ha Hin.
  destruct Ha as [Hp | p' Hp Hne | p' e Hp Hne | p' sock' e Hp Hne
                 | p' sock' u e Hp Hne | p' sock' u u' Hp Hne];
    simpl in Hin;
    repeat (destruct Hin as [Hin | Hin]; [try discriminate Hin |]);
    try (by destruct Hin); simplify_eq; eauto.
Qed.

Lemma attempt_run_connected self tr self' :
  attempt_run self tr true self' →
  ∃ sock p u, _socket self' = Some sock ∧
    In (EConnect sock p (Ok u)) tr.
Proof.
  intros Ha. inversion Ha; subst.
  eexists _, _, _. split; [done |]. simpl. eauto 10.
Qed.

Lemma connect_run_attempt_inv self tr r self' now :
  connect_run self tr r self' →
  head tr = Some (ETime now) →
  (inject_Z RECONNECT_INTERVAL <= now - _last_connect_attempt self)%Q →
  ∃ tr1 self1 tr2,
    tr = ETime now :: tr1 ++ tr2 ∧
    close_run (with_last_connect_attempt now self) tr1 self1 ∧
    attempt_run self1 tr2 r self'.
Proof.
  intros [now' Hlt | now' tr1 self1 tr2 r' self2 Hle Hc Ha]; simpl;
    intros [= ->] Hwin; [lra |]. by exists tr1, self1, tr2.
Qed.


(** A status comes from a reply, and from nowhere else. *)
Lemma query_run_status_has_reply file_path self tr status self' :
  query_run file_path self tr (Returned (Some status)) self' →
  ∃ s received,
    In (ERecv s 1024 (Ok received)) tr ∧
    parse_response (decode_utf8_ignore received) = Some status.
Proof.
  intros Hrun.
  assert (Hx : ∀ s0 self0 tr0 self1,
    exchange_run file_path s0 self0 tr0 (Returned (Some status)) self1 →
    ∃ s received,
      In (ERecv s 1024 (Ok received)) tr0 ∧
      parse_response (decode_utf8_ignore received) = Some status).
  { intros s0 self0 tr0 self1 Hex.
    inversion Hex as [| | | data u received Henc]; subst.
    exists s0, received. split; [simpl; eauto | done]. }
  inversion Hrun as [s0 tr0 r0 self0 Hs Hex | | tr1 self1 s0 tr2 r2 self2 Hn Hc Hs1 Hex];
    subst.
  - by eapply Hx.
  - destruct (Hx _ _ _ _ Hex) as (s & received & Hin & Hp).
    exists s, received. split; [| done]. apply in_or_app. by right.
Qed.

Section Client.
Context {W : Type} (h : handler W).

(** X9: what [_connect] returns agrees with the handle it leaves: True
    exactly when the client holds a handle afterwards.  The socket path
    is never changed, and the recorded attempt is either left as it was
    or set to the clock reading of this call. *)
Theorem connect_result_agrees_with_handle self w r self' w' tr :
  interp h (_connect self) w = ((r, self'), w', tr) →
  (r = true ↔ _socket self' ≠ None) ∧
  _socket_path self' = _socket_path self ∧
  ∃ now, head tr = Some (ETime now) ∧
    (_last_connect_attempt self' = _last_connect_attempt self
     ∨ _last_connect_attempt self' = now).
Proof.
  intros Hrun. apply ClientProps._connect_run in Hrun.
  destruct Hrun as [now Hlt | now tr1 self1 tr2 r self2 Hle Hc Ha].
  - split; [| split; [done | by exists now; split; [| left]]].
    destruct (_socket self); [by rewrite bool_decide_eq_true_2
                             | by rewrite bool_decide_eq_false_2 by naive_solver].
  - destruct (close_run_keeps _ _ _ Hc) as (Hn & Hp & Hl).
    destruct (attempt_run_keeps _ _ _ _ Ha) as (Hp' & Hl' & Hfalse).
    split; [| split].
    + destruct r.
      * destruct (attempt_run_connected _ _ _ Ha) as (sock & p & u & -> & _).
        done.
      * rewrite (Hfalse eq_refl), Hn. naive_solver.
    + by rewrite Hp', Hp.
    + exists now. split; [done |]. right. by rewrite Hl', Hl.
Qed.

(** X10: an attempt that is not suppressed (30 seconds or more after the
    recorded one) records its clock reading whether it succeeds or not,
    closes the handle it held, if any, before anything else, and leaves
    no handle when it fails. *)
Theorem attempt_stamps_and_closes self w r self' w' tr now :
  interp h (_connect self) w = ((r, self'), w', tr) →
  head tr = Some (ETime now) →
  (inject_Z RECONNECT_INTERVAL <= now - _last_connect_attempt self)%Q →
  _last_connect_attempt self' = now ∧
  (∀ s, _socket self = Some s →
        ∃ rc rest, tr = ETime now :: EClose s rc :: rest) ∧
  (r = false → _socket self' = None).
Proof.
  intros Hrun Hhead Hwin. apply ClientProps._connect_run in Hrun.
  destruct (connect_run_attempt_inv _ _ _ _ _ Hrun Hhead Hwin)
    as (tr1 & self1 & tr2 & -> & Hc & Ha).
  destruct (close_run_keeps _ _ _ Hc) as (Hn & Hp & Hl).
  destruct (attempt_run_keeps _ _ _ _ Ha) as (Hp' & Hl' & Hfalse).
  split; [by rewrite Hl', Hl | split].
  - intros s Hs. destruct Hc as [Hnone | s' rc Hs'].
    + simpl in Hnone. congruence.
    + simpl in Hs'. assert (s' = s) as -> by congruence.
      by exists rc, tr2.
  - intros ->. by rewrite (Hfalse eq_refl).
Qed.

(** The calls of an exchange are sends, receives and closes. *)
Lemma exchange_run_no_connect file_path s self tr r self' sock p rc :
  exchange_run file_path s self tr r self' →
  ¬ In (EConnect sock p rc) tr.
Proof.
  intros Hx Hin.
  destruct Hx as [Henc | data e tr self' Henc Hc | data u e tr self' Henc Hc
                 | data u received Henc];
    try destruct Hc; simpl in Hin;
    repeat (destruct Hin as [Hin | Hin]; [discriminate Hin |]);
    by destruct Hin.
Qed.

Lemma connect_run_connect self tr r self' sock p rc :
  connect_run self tr r self' →
  In (EConnect sock p rc) tr →
  _socket_path self = Some p ∧
  ∃ before u,
    tr = before ++ [EPathExists p true; ESocketNew (Ok sock);
                    ESetTimeout sock SOCKET_TIMEOUT (Ok u);
                    EConnect sock p rc].
Proof.
  intros Hc Hin.
  destruct Hc as [now Hlt | now tr1 self1 tr2 r self2 Hle Hc Ha].
  - simpl in Hin. by destruct Hin as [[=] | []].
  - destruct (close_run_keeps _ _ _ Hc) as (_ & Hp & _).
    destruct Hin as [[=] | Hin].
    apply in_app_or in Hin as [Hin | Hin].
    + destruct Hc; simpl in Hin; [done |]. by destruct Hin as [[=] | []].
    + destruct (attempt_run_connect _ _ _ _ _ _ _ Ha Hin) as (Hp1 & u & ->).
      split; [by rewrite <- Hp1, Hp |].
      by exists (ETime now :: tr1), u.
Qed.

(** X11: [query_status] connects to nothing but the socket path of the
    client, and only right after [os.path.exists] said that the path is
    there, on a socket created in this call whose timeout has been set
    to SOCKET_TIMEOUT. *)
Theorem connects_only_to_the_checked_path
    file_path self w r self' w' tr sock p rc :
  interp h (query_status file_path self) w = ((r, self'), w', tr) →
  In (EConnect sock p rc) tr →
  _socket self = None ∧ _socket_path self = Some p ∧
  ∃ before u after,
    tr = before ++ [EPathExists p true; ESocketNew (Ok sock);
                    ESetTimeout sock SOCKET_TIMEOUT (Ok u);
                    EConnect sock p rc] ++ after.
Proof.
  intros Hrun Hin. apply ClientProps.query_status_run in Hrun.
  destruct Hrun as [s tr r self' Hs Hx | tr self' Hn Hc
                   | tr1 self1 s tr2 r self2 Hn Hc Hs1 Hx].
  - by destruct (exchange_run_no_connect _ _ _ _ _ _ _ _ _ Hx Hin).
  - destruct (connect_run_connect _ _ _ _ _ _ _ Hc Hin)
      as (Hp & before & u & ->).
    split; [done |]. split; [done |]. exists before, u, [].
    by rewrite app_nil_r.
  - apply in_app_or in Hin as [Hin | Hin].
    + destruct (connect_run_connect _ _ _ _ _ _ _ Hc Hin)
        as (Hp & before & u & ->).
      split; [done |]. split; [done |]. exists before, u, tr2.
      by rewrite <- app_assoc.
    + by destruct (exchange_run_no_connect _ _ _ _ _ _ _ _ _ Hx Hin).
Qed.




Lemma exchange_run_reply file_path s self tr r self' received :
  exchange_run file_path s self tr r self' →
  In (ERecv s 1024 (Ok received)) tr →
  r = Returned (parse_response (decode_utf8_ignore received)) ∧
  self' = self.
Proof.
  intros Hx Hin.
  destruct Hx as [Henc | data e tr self' Henc Hc | data u e tr self' Henc Hc
                 | data u received' Henc];
    try destruct Hc; simpl in Hin;
    repeat (destruct Hin as [Hin | Hin]; [try discriminate Hin |]);
    try (by destruct Hin). by simplify_eq.
Qed.

Lemma exchange_run_failure file_path s self tr r self' :
  _socket self = Some s →
  exchange_run file_path s self tr r self' →
  (∃ data e, In (ESendAll s data (Err e)) tr)
  ∨ (∃ n e, In (ERecv s n (Err e)) tr) →
  r = Returned None ∧ self' = with_socket None self.
Proof.
  intros Hs Hx Hfail.
  destruct Hx as [Henc | data e tr self' Henc Hc | data u e tr self' Henc Hc
                 | data u received Henc].
  - by destruct Hfail as [(? & ? & []) | (? & ? & [])].
  - destruct Hc; [congruence | done].
  - destruct Hc; [congruence | done].
  - destruct Hfail as [(? & ? & Hin) | (? & ? & Hin)]; simpl in Hin;
      by destruct Hin as [[=] | [[=] | []]].
Qed.

(** A query without handle, made 30 seconds or more after the recorded
    attempt, records its own clock reading. *)
Lemma query_run_attempt file_path self tr r self' now :
  _socket self = None →
  query_run file_path self tr r self' →
  head tr = Some (ETime now) →
  (inject_Z RECONNECT_INTERVAL <= now - _last_connect_attempt self)%Q →
  _last_connect_attempt self' = now.
Proof.
  intros Hn Hrun Hhead Hwin.
  destruct Hrun as [s tr r self' Hs Hx | tr self' _ Hc
                   | tr1 self1 s tr2 r self2 _ Hc Hs1 Hx]; [congruence | |].
  - destruct (connect_run_attempt_inv _ _ _ _ _ Hc Hhead Hwin)
      as (tr1 & self1 & tr2 & _ & Hcl & Ha).
    destruct (close_run_keeps _ _ _ Hcl) as (_ & _ & Hl).
    destruct (attempt_run_keeps _ _ _ _ Ha) as (_ & Hl' & _).
    by rewrite Hl', Hl.
  - destruct (ClientProps.connect_run_head _ _ _ _ Hc) as (now' & rest & ->).
    simpl in Hhead. injection Hhead as ->.
    destruct (connect_run_attempt_inv _ _ _ _ now Hc eq_refl Hwin)
      as (tr1' & self1' & tr2' & _ & Hcl & Ha).
    destruct (close_run_keeps _ _ _ Hcl) as (_ & _ & Hl).
    destruct (attempt_run_keeps _ _ _ _ Ha) as (_ & Hl' & _).
    destruct (ClientProps.exchange_run_on_handle _ _ _ _ _ _ Hs1 Hx)
      as (_ & _ & Hl'').
    by rewrite Hl'', Hl', Hl.
Qed.


(** A query without handle, made less than 30 seconds after the recorded
    attempt, reads the clock and answers absent. *)
Lemma query_run_suppressed_head file_path self tr r self' now :
  _socket self = None →
  query_run file_path self tr r self' →
  head tr = Some (ETime now) →
  (now - _last_connect_attempt self < inject_Z RECONNECT_INTERVAL)%Q →
  r = Returned None ∧ tr = [ETime now] ∧ self' = self.
Proof.
  intros Hn Hrun Hhead Hwin.
  destruct Hrun as [s tr r self' Hs Hx | tr self' _ Hc
                   | tr1 self1 s tr2 r self2 _ Hc Hs1 Hx]; [congruence | |].
  - by destruct (ClientProps.connect_run_suppressed _ _ _ _ now Hc Hhead Hwin)
      as (-> & -> & _).
  - destruct (ClientProps.connect_run_head _ _ _ _ Hc) as (now' & rest & ->).
    simpl in Hhead. injection Hhead as ->.
    destruct (ClientProps.connect_run_suppressed _ _ _ _ now Hc eq_refl Hwin)
      as (_ & _ & Hr).
    rewrite Hn in Hr. by rewrite bool_decide_eq_false_2 in Hr by (by intros ?).
Qed.

(** X14: a transport failure drops the handle and nothing else: the
    recorded attempt is not touched.  So the next query is suppressed
    (it only reads the clock and answers absent) while the clock is less
    than 30 seconds after the attempt recorded before the failure, and
    makes a new attempt, recording its reading, from then on. *)
Theorem failure_keeps_the_recorded_attempt
    file_path self s w r self' w' tr :
  _socket self = Some s →
  interp h (query_status file_path self) w = ((r, self'), w', tr) →
  (∃ data e, In (ESendAll s data (Err e)) tr)
  ∨ (∃ n e, In (ERecv s n (Err e)) tr) →
  self' = with_socket None self ∧
  ∀ next_path now r2 self2 w2 tr2,
    interp h (query_status next_path self') w' = ((r2, self2), w2, tr2) →
    head tr2 = Some (ETime now) →
    ((now - _last_connect_attempt self < inject_Z RECONNECT_INTERVAL)%Q →
     r2 = Returned None ∧ tr2 = [ETime now] ∧ self2 = self') ∧
    ((inject_Z RECONNECT_INTERVAL <= now - _last_connect_attempt self)%Q →
     _last_connect_attempt self2 = now).
Proof.
  intros Hs Hrun Hfail. apply ClientProps.query_status_run in Hrun.
  assert (Hself : self' = with_socket None self).
  { destruct Hrun as [s0 tr r self' Hs0 Hx | tr self' Hn _
                     | tr1 self1 s0 tr2 r self2 Hn _ _ _]; try congruence.
    assert (s0 = s) as -> by congruence.
    by destruct (exchange_run_failure _ _ _ _ _ _ Hs Hx Hfail). }
  split; [exact Hself |]. subst self'.
  intros next_path now r2 self2 w2 tr2 Hnext Hhead.
  apply ClientProps.query_status_run in Hnext. split.
  - intros Hwin.
    by apply (query_run_suppressed_head next_path (with_socket None self)).
  - intros Hwin. by eapply (query_run_attempt next_path (with_socket None self)).
Qed.

(** X15: a query on a client without handle whose connect succeeds is
    answered in that same call: the reply received on the new socket is
    parsed and returned, the client holds the new socket, and the clock
    reading of the call is the recorded attempt. *)
Theorem reconnect_answers_in_the_same_call
    file_path self w r self' w' tr sock p u received :
  interp h (query_status file_path self) w = ((r, self'), w', tr) →
  In (EConnect sock p (Ok u)) tr →
  In (ERecv sock 1024 (Ok received)) tr →
  r = Returned (parse_response (decode_utf8_ignore received)) ∧
  _socket self' = Some sock ∧
  ∃ now, head tr = Some (ETime now) ∧ _last_connect_attempt self' = now.
Proof.
  intros Hrun Hconn Hrecv. apply ClientProps.query_status_run in Hrun.
  assert (Hconnected : ∀ self0 tr0 b self1,
    connect_run self0 tr0 b self1 → In (EConnect sock p (Ok u)) tr0 →
    b = true ∧ _socket self1 = Some sock ∧
    ∃ now, head tr0 = Some (ETime now) ∧ _last_connect_attempt self1 = now).
  { intros self0 tr0 b self1 Hc Hin.
    destruct Hc as [now Hlt | now tr1 self2 tr2 b self3 Hle Hcl Ha].
    - simpl in Hin. by destruct Hin as [[=] | []].
    - destruct (close_run_keeps _ _ _ Hcl) as (_ & _ & Hl).
      destruct (attempt_run_keeps _ _ _ _ Ha) as (_ & Hl' & _).
      destruct Hin as [[=] | Hin].
      apply in_app_or in Hin as [Hin | Hin].
      + destruct Hcl; simpl in Hin; [done |]. by destruct Hin as [[=] | []].
      + assert (b = true ∧ _socket self3 = Some sock) as [-> Hs3].
        { destruct Ha; simpl in Hin;
            repeat (destruct Hin as [Hin | Hin]; [try discriminate Hin |]);
            try (by destruct Hin). by simplify_eq. }
        split; [done |]. split; [done |]. exists now.
        split; [done |]. by rewrite Hl', Hl. }
  destruct Hrun as [s tr r self' Hs Hx | tr self' Hn Hc
                   | tr1 self1 s tr2 r self2 Hn Hc Hs1 Hx].
  - by destruct (exchange_run_no_connect _ _ _ _ _ _ _ _ _ Hx Hconn).
  - by destruct (Hconnected _ _ _ _ Hc Hconn) as ([=] & _).
  - assert (Hin1 : In (EConnect sock p (Ok u)) tr1).
    { apply in_app_or in Hconn as [Hin | Hin]; [done |].
      by destruct (exchange_run_no_connect _ _ _ _ _ _ _ _ _ Hx Hin). }
    destruct (Hconnected _ _ _ _ Hc Hin1) as (_ & Hsock & now & Hhead & Hl).
    assert (s = sock) as -> by congruence.
    assert (Hin2 : In (ERecv sock 1024 (Ok received)) tr2).
    { apply in_app_or in Hrecv as [Hin | Hin]; [| done].
      by pose proof (ClientProps.connect_run_no_transfer _ _ _ _ _ Hc Hin). }
    destruct (exchange_run_reply _ _ _ _ _ _ _ Hx Hin2) as [-> ->].
    split; [done |]. split; [done |]. exists now. split; [| done].
    destruct tr1; [done |]. exact Hhead.
Qed.

End Client.
End ClientMore.

(** ** The socket path *)

Module SocketPathProps.
Import AeroCloudDaemonClient.

Lemma lit_inj (a b : string) : lit a = lit b → a = b.
Proof.
  revert b. induction a as [| x a IH]; intros [| y b]; cbn [lit]; try done.
  intros [= Hxy Hab]. f_equal; [| by apply IH].
  rewrite <- (Ascii.ascii_N_embedding x), <- (Ascii.ascii_N_embedding y).
  unfold of_ascii in Hxy. by rewrite Hxy.
Qed.

Lemma str_of_N_inj (m n : N) : str_of_N m = str_of_N n → m = n.
Proof. intros Heq. apply lit_inj in Heq. by apply (inj pretty). Qed.

Lemma endswith_slash_app (a b : pystr) :
  b ≠ [] → endswith_slash (a ++ b) = endswith_slash b.
Proof.
  intros Hb. unfold endswith_slash. rewrite last_app.
  destruct (last b) eqn:Hlast; [done |].
  by apply last_None in Hlast.
Qed.

(** Joining [aerocloud] and [socket] to a directory puts one slash
    between the directory and [aerocloud], unless it ends with one. *)
Lemma path_join_runtime_dir (d : pystr) :
  d ≠ [] →
  path_join d [lit "aerocloud"; lit "socket"] =
    d ++ (if endswith_slash d then lit "aerocloud/socket"
          else lit "/aerocloud/socket").
Proof.
  intros Hd. unfold path_join. cbn [foldl].
  assert (Hfirst : path_join2 d (lit "aerocloud") =
            d ++ (if endswith_slash d then lit "aerocloud"
                  else lit "/aerocloud")).
  { unfold path_join2. change (startswith (lit "aerocloud") [slash]) with false.
    cbn match. destruct d; [done |]. by destruct (endswith_slash _). }
  rewrite Hfirst. unfold path_join2.
  change (startswith (lit "socket") [slash]) with false. cbn match.
  destruct (d ++ _) as [| x l] eqn:Hx.
  { by apply app_eq_nil in Hx as [-> _]. }
  rewrite <- Hx.
  destruct (endswith_slash d);
    (rewrite endswith_slash_app by done);
    change (endswith_slash (lit "aerocloud")) with false;
    change (endswith_slash (lit "/aerocloud")) with false;
    cbn match; by rewrite <- app_assoc.
Qed.

Section SocketPath.
Context {W : Type} (h : handler W).

Local Opaque lit.

(** What [_find_socket_path] does, by the value of the variable. *)
Lemma find_socket_path_run self w :
  interp h (_find_socket_path self) w =
    match (h (GetEnv (lit "XDG_RUNTIME_DIR")) w).1 with
    | Some (c :: d) =>
        (with_socket_path
           (Some (path_join (c :: d) [lit "aerocloud"; lit "socket"])) self,
         (h (GetEnv (lit "XDG_RUNTIME_DIR")) w).2,
         [EGetEnv (lit "XDG_RUNTIME_DIR") (Some (c :: d))])
    | v =>
        let w1 := (h (GetEnv (lit "XDG_RUNTIME_DIR")) w).2 in
        (with_socket_path
           (Some (lit "/tmp/aerocloud-" ++ str_of_N (h GetUid w1).1
                    ++ lit "/socket")) self,
         (h GetUid w1).2,
         [EGetEnv (lit "XDG_RUNTIME_DIR") v; EGetUid (h GetUid w1).1])
    end.
Proof.
  unfold _find_socket_path, perform. rewrite interp_bind, interp_vis.
  cbn [fst snd observe]. rewrite interp_ret. cbn [fst snd app].
  destruct (h (GetEnv (lit "XDG_RUNTIME_DIR")) w) as [[[| c d] |] w1];
    cbn [fst snd]; try reflexivity.
Qed.

(** X16: how the socket path is resolved.  With XDG_RUNTIME_DIR set to a
    non-empty directory the path is [<dir>/aerocloud/socket], with no
    second slash when the directory already ends with one, and the user
    id is not looked up.  With the variable unset, or set to the empty
    string, the path is [/tmp/aerocloud-<uid>/socket]. *)
Theorem socket_path_resolution self w self' w' tr v :
  interp h (_find_socket_path self) w = (self', w', tr) →
  head tr = Some (EGetEnv (lit "XDG_RUNTIME_DIR") v) →
  _socket self' = _socket self ∧
  _last_connect_attempt self' = _last_connect_attempt self ∧
  match v with
  | Some (c :: d) =>
      tr = [EGetEnv (lit "XDG_RUNTIME_DIR") v] ∧
      _socket_path self' =
        Some ((c :: d) ++ (if endswith_slash (c :: d)
                           then lit "aerocloud/socket"
                           else lit "/aerocloud/socket"))
  | _ =>
      ∃ uid, tr = [EGetEnv (lit "XDG_RUNTIME_DIR") v; EGetUid uid] ∧
             _socket_path self' =
               Some (lit "/tmp/aerocloud-" ++ str_of_N uid ++ lit "/socket")
  end.
Proof.
  rewrite find_socket_path_run.
  destruct (h (GetEnv (lit "XDG_RUNTIME_DIR")) w) as [[[| c d] |] w1];
    cbn [fst snd]; intros [= <- <- <-]; cbn [head]; intros [= <-];
    (split; [done |]); (split; [done |]).
  - by eexists.
  - split; [done |]. cbn [_socket_path with_socket_path].
    f_equal. exact (path_join_runtime_dir (c :: d) ltac:(done)).
  - by eexists.
Qed.

(** X17: a new client holds no handle, has recorded no attempt (reading
    0), and always has a socket path: a non-empty one that ends with
    [/socket]. *)
Theorem init_resolves_a_socket_path w self w' tr :
  interp h init w = (self, w', tr) →
  _socket self = None ∧ _last_connect_attempt self = 0%Q ∧
  ∃ dir, _socket_path self = Some (dir ++ lit "/socket").
Proof.
  unfold init. rewrite find_socket_path_run.
  destruct (h (GetEnv (lit "XDG_RUNTIME_DIR")) w) as [[[| c d] |] w1];
    cbn [fst snd]; intros [= <- <- <-]; (split; [done |]); (split; [done |]);
    cbn [_socket_path with_socket_path].
  - eexists. by rewrite app_assoc.
  - change (path_join2 (path_join2 (c :: d) (lit "aerocloud")) (lit "socket"))
      with (path_join (c :: d) [lit "aerocloud"; lit "socket"]).
    rewrite path_join_runtime_dir by done.
    destruct (endswith_slash (c :: d)).
    + exists ((c :: d) ++ lit "aerocloud").
      by rewrite <- app_assoc.
    + exists ((c :: d) ++ lit "/aerocloud").
      by rewrite <- app_assoc.
  - eexists. by rewrite app_assoc.
Qed.

(** X18: without XDG_RUNTIME_DIR, users with different ids get different
    socket paths. *)
Theorem fallback_paths_differ_by_user
    self1 w1 self1' w1' v1 uid1 self2 w2 self2' w2' v2 uid2 :
  interp h (_find_socket_path self1) w1
  = (self1', w1', [EGetEnv (lit "XDG_RUNTIME_DIR") v1; EGetUid uid1]) →
  interp h (_find_socket_path self2) w2
  = (self2', w2', [EGetEnv (lit "XDG_RUNTIME_DIR") v2; EGetUid uid2]) →
  _socket_path self1' = _socket_path self2' →
  uid1 = uid2.
Proof.
  rewrite !find_socket_path_run.
  destruct (h (GetEnv (lit "XDG_RUNTIME_DIR")) w1) as [[[| c1 d1] |] u1];
    destruct (h (GetEnv (lit "XDG_RUNTIME_DIR")) w2) as [[[| c2 d2] |] u2];
    cbn [fst snd]; intros [= <- _ _ <-] [= <- _ _ <-];
    cbn [_socket_path with_socket_path]; intros Heq;
    apply (inj Some), app_inv_head, app_inv_tail in Heq;
    by apply str_of_N_inj.
Qed.

End SocketPath.
End SocketPathProps.

(** ** The extension *)

Module ExtensionProps.
Import AeroCloudExtension ExtensionShapes.

Section Extension.
Context {W : Type} (h : handler W).

Lemma update_file_info_skips file self w :
  uri_scheme file ≠ lit "file" ∨ location_path file = None
  ∨ location_path file = Some [] →
  interp h (update_file_info file self) w
  = ((Returned COMPLETE, self, file), w, []).
Proof.
  unfold update_file_info. intros [Hs | [Hp | Hp]].
  - by rewrite bool_decide_eq_true_2.
  - destruct (bool_decide _); [done |]. by rewrite Hp.
  - destruct (bool_decide _); [done |]. by rewrite Hp.
Qed.

Lemma update_file_info_checked file self w file_path r self' file' w' tr :
  uri_scheme file = lit "file" →
  location_path file = Some file_path → file_path ≠ [] →
  interp h (update_file_info file self) w = ((r, self', file'), w', tr) →
  checked_run h file file_path self w r self' file' w' tr.
Proof.
  intros Hs Hp Hne. unfold update_file_info.
  rewrite bool_decide_eq_false_2 by (by intros ?). rewrite Hp.
  destruct file_path as [| c0 p0]; [done |].
  rewrite interp_bind.
  destruct (interp h (AeroCloudStatusCache.get (c0 :: p0) (_cache self)) w)
    as [[[cached cache1] w1] tr1] eqn:Hget.
  cbn [fst snd]. destruct cached as [status |]; cbn [fst snd].
  - cbn [interp fst snd]. rewrite app_nil_r.
    intros [= <- <- <- <- <-]. by eapply checked_hit.
  - rewrite interp_bind. cbn [fst snd _cache _client].
    destruct (interp h (AeroCloudDaemonClient.query_status (c0 :: p0)
                          (_client self)) w1)
      as [[[q client2] w2] tr2] eqn:Hq.
    cbn [fst snd _cache _client].
    destruct q as [[[| c st] |] | e]; cbn [fst snd].
    + cbn [interp fst snd]. rewrite app_nil_r.
      intros [= <- <- <- <- <-].
      eapply checked_nothing; [exact Hget | exact Hq | by right].
    + rewrite interp_bind. cbn [fst snd _cache _client].
      destruct (interp h (AeroCloudStatusCache.set (c0 :: p0) (c :: st)
                            cache1) w2) as [[cache2 w3] tr3] eqn:Hset.
      cbn [fst snd]. cbn [interp fst snd]. rewrite app_nil_r.
      intros [= <- <- <- <- <-].
      by eapply checked_status.
    + cbn [interp fst snd]. rewrite app_nil_r.
      intros [= <- <- <- <- <-].
      eapply checked_nothing; [exact Hget | exact Hq | by left].
    + cbn [interp fst snd]. rewrite app_nil_r.
      intros [= <- <- <- <- <-]. by eapply checked_raise.
Qed.

Lemma file_cases file :
  (uri_scheme file ≠ lit "file" ∨ location_path file = None
   ∨ location_path file = Some [])
  ∨ ∃ file_path, uri_scheme file = lit "file" ∧
                 location_path file = Some file_path ∧ file_path ≠ [].
Proof.
  destruct (decide (uri_scheme file = lit "file")) as [Hs | Hs]; [| auto].
  destruct (location_path file) as [[| c p] |] eqn:Hp; auto.
  right. by exists (c :: p).
Qed.


(** X19: a file that is not local (its URI scheme is not [file]) or has
    no path is left alone: the call answers COMPLETE, calls nothing, and
    changes neither the cache, the client nor the file. *)
Theorem other_files_are_left_alone file self w r self' file' w' tr :
  uri_scheme file ≠ lit "file" ∨ location_path file = None
  ∨ location_path file = Some [] →
  interp h (update_file_info file self) w = ((r, self', file'), w', tr) →
  r = Returned COMPLETE ∧ tr = [] ∧ self' = self ∧ file' = file ∧ w' = w.
Proof.
  intros Hskip. rewrite (update_file_info_skips _ _ _ Hskip).
  by intros [= <- <- <- <- <-].
Qed.


Lemma get_keeps_nonempty path cache w r cache' w' tr :
  statuses_nonempty cache →
  interp h (AeroCloudStatusCache.get path cache) w = ((r, cache'), w', tr) →
  statuses_nonempty cache' ∧
  AeroCloudStatusCache._ttl cache' = AeroCloudStatusCache._ttl cache ∧
  (∀ p entry, AeroCloudStatusCache._cache cache' !! p = Some entry →
              AeroCloudStatusCache._cache cache !! p = Some entry) ∧
  (r = None → AeroCloudStatusCache._cache cache' !! path = None).
Proof.
  intros Hinv Hget.
  apply CacheProps.get_cases in Hget
    as [(Hnone & -> & -> & _) | [Hfresh | Hstale]].
  - done.
  - by destruct Hfresh as (st & ts & now & _ & _ & _ & -> & ->).
  - destruct Hstale as (st & ts & now & _ & _ & _ & -> & ->).
    cbn [AeroCloudStatusCache._cache AeroCloudStatusCache._ttl].
    split; [| split; [done | split]].
    + intros p s' t' Hl. cbn [AeroCloudStatusCache._cache] in Hl.
      apply lookup_delete_Some in Hl as [_ Hl]. by eapply Hinv.
    + intros p entry Hl. by apply lookup_delete_Some in Hl as [_ Hl].
    + intros _. apply lookup_delete_eq.
Qed.

(** X21: the extension stores nothing but non-empty statuses: if every
    status in the cache is non-empty before [update_file_info], every
    status is non-empty after it. *)
Theorem cached_statuses_stay_nonempty file self w r self' file' w' tr :
  statuses_nonempty (_cache self) →
  interp h (update_file_info file self) w = ((r, self', file'), w', tr) →
  statuses_nonempty (_cache self').
Proof.
  intros Hinv Hrun.
  destruct (file_cases file) as [Hskip | (file_path & Hs & Hp & Hne)].
  { rewrite update_file_info_skips in Hrun by done.
    by injection Hrun as _ <- _ _ _. }
  apply (update_file_info_checked _ _ _ file_path) in Hrun; [| done..].
  destruct Hrun as [st cache1 w1 tr1 Hget
                   | cache1 w1 tr1 e client2 w2 tr2 Hget Hq
                   | cache1 w1 tr1 st client2 w2 tr2 Hget Hq Hst
                   | cache1 w1 tr1 st client2 w2 tr2 cache2 w3 tr3
                       Hget Hq Hst Hset];
    cbn [_cache];
    destruct (get_keeps_nonempty _ _ _ _ _ _ _ Hinv Hget) as (Hinv1 & _);
    try done.
  rewrite CacheProps.set_run in Hset. injection Hset as <- _ _.
  intros q0 s' t'. cbn [AeroCloudStatusCache._cache].
  destruct (decide (file_path = q0)) as [<- | Hne'].
  - rewrite lookup_insert_eq. by intros [= <- _].
  - rewrite lookup_insert_ne by done. apply Hinv1.
Qed.

(** X22: without a reply from the daemon nothing is stored: when no
    receive succeeded during [update_file_info], an entry that the path
    has afterwards is one it already had before. *)
Theorem no_reply_no_new_entry
    file self w file_path r self' file' w' tr :
  location_path file = Some file_path →
  interp h (update_file_info file self) w = ((r, self', file'), w', tr) →
  (∀ s n received, ¬ In (ERecv s n (Ok received)) tr) →
  ∀ entry,
    AeroCloudStatusCache._cache (_cache self') !! file_path = Some entry →
    AeroCloudStatusCache._cache (_cache self) !! file_path = Some entry.
Proof.
  intros Hp Hrun Hnoreply entry.
  destruct (decide (uri_scheme file = lit "file")) as [Hs | Hs].
  2: { rewrite update_file_info_skips in Hrun by (by left).
       by injection Hrun as _ <- _ _ _. }
  destruct file_path as [| c p].
  { rewrite update_file_info_skips in Hrun by auto.
    by injection Hrun as _ <- _ _ _. }
  apply (update_file_info_checked _ _ _ (c :: p)) in Hrun; [| done..].
  assert (Hget_sub : ∀ r0 cache1 w1 tr1,
    interp h (AeroCloudStatusCache.get (c :: p) (_cache self)) w
    = ((r0, cache1), w1, tr1) →
    AeroCloudStatusCache._cache cache1 !! (c :: p) = Some entry →
    AeroCloudStatusCache._cache (_cache self) !! (c :: p) = Some entry).
  { intros r0 cache1 w1 tr1 Hget.
    apply CacheProps.get_cases in Hget
      as [(_ & _ & -> & _) | [Hfresh | Hstale]]; [done | |].
    - by destruct Hfresh as (? & ? & ? & _ & _ & _ & _ & ->).
    - destruct Hstale as (? & ? & ? & _ & _ & _ & _ & ->).
      cbn [AeroCloudStatusCache._cache]. by rewrite lookup_delete_eq. }
  destruct Hrun as [st cache1 w1 tr1 Hget
                   | cache1 w1 tr1 e client2 w2 tr2 Hget Hq
                   | cache1 w1 tr1 st client2 w2 tr2 Hget Hq Hst
                   | cache1 w1 tr1 st client2 w2 tr2 cache2 w3 tr3
                       Hget Hq Hst Hset];
    cbn [_cache]; try (by eapply Hget_sub).
  exfalso. apply ClientProps.query_status_run in Hq.
  destruct (ClientMore.query_run_status_has_reply _ _ _ _ _ Hq)
    as (s & received & Hin & _).
  apply (Hnoreply s 1024 received).
  apply in_or_app. right. apply in_or_app. by left.
Qed.

(** What [_apply_emblem] does, by the table. *)
Lemma apply_emblem_cases file status :
  (∃ emblem, (status, emblem) ∈ emblem_table ∧
             _apply_emblem file status = add_emblem emblem file)
  ∨ ((∀ emblem, (status, emblem) ∉ emblem_table) ∧
     _apply_emblem file status = file).
Proof.
  unfold _apply_emblem.
  destruct (STATUS_EMBLEMS !! status) as [v |] eqn:Hl.
  - apply elem_of_list_to_map_2 in Hl.
    repeat (apply elem_of_cons in Hl as [[= -> ->] | Hl];
            [first [ left; eexists; split; [| reflexivity];
                     vm_compute; repeat first [by left | right]
                   | right; split; [| reflexivity];
                     intros emblem Hin; vm_compute in Hin;
                     repeat (apply elem_of_cons in Hin as [[=] | Hin]);
                     by apply elem_of_nil in Hin ] |]).
    by apply elem_of_nil in Hl.
  - right. split; [| done]. intros emblem Hin.
    apply not_elem_of_list_to_map_2 in Hl. apply Hl.
    repeat (apply elem_of_cons in Hin as [[= -> _] | Hin];
            [vm_compute; repeat first [by left | right] |]).
    by apply elem_of_nil in Hin.
Qed.

(** X23: [update_file_info] adds at most one emblem to the file, and only
    one of the six AeroCloud emblems of the table; it changes nothing
    else of the file. *)
Theorem at_most_one_emblem file self w r self' file' w' tr :
  interp h (update_file_info file self) w = ((r, self', file'), w', tr) →
  uri_scheme file' = uri_scheme file ∧
  location_path file' = location_path file ∧
  (emblems file' = emblems file
   ∨ ∃ status emblem, (status, emblem) ∈ emblem_table ∧
                      emblems file' = emblems file ++ [emblem]).
Proof.
  intros Hrun.
  assert (Hsame :
    uri_scheme file = uri_scheme file ∧
    location_path file = location_path file ∧
    (emblems file = emblems file
     ∨ ∃ status emblem, (status, emblem) ∈ emblem_table ∧
                        emblems file = emblems file ++ [emblem]))
    by (split; [done | split; [done | by left]]).
  assert (Hkeep : ∀ st,
    uri_scheme (_apply_emblem file st) = uri_scheme file ∧
    location_path (_apply_emblem file st) = location_path file ∧
    (emblems (_apply_emblem file st) = emblems file
     ∨ ∃ status emblem, (status, emblem) ∈ emblem_table ∧
         emblems (_apply_emblem file st) = emblems file ++ [emblem])).
  { intros st.
    destruct (apply_emblem_cases file st)
      as [(emblem & Hin & ->) | (_ & ->)]; [| exact Hsame].
    split; [done |]. split; [done |]. right. by exists st, emblem. }
  destruct (file_cases file) as [Hskip | (file_path & Hs & Hp & Hne)].
  { rewrite update_file_info_skips in Hrun by done.
    by injection Hrun as _ _ <- _ _. }
  apply (update_file_info_checked _ _ _ file_path) in Hrun; [| done..].
  destruct Hrun; try apply Hkeep; exact Hsame.
Qed.

(** X24: [update_file_info] answers COMPLETE, whatever the daemon does;
    the one other outcome is the [UnicodeEncodeError] of a path that
    UTF-8 cannot encode, and then the file gets no emblem. *)
Theorem update_answers_complete file self w r self' file' w' tr :
  interp h (update_file_info file self) w = ((r, self', file'), w', tr) →
  r = Returned COMPLETE
  ∨ (r = Raised UnicodeEncodeError ∧ file' = file ∧
     ∃ file_path, location_path file = Some file_path ∧
                  encode_utf8 file_path = None).
Proof.
  intros Hrun.
  destruct (file_cases file) as [Hskip | (file_path & Hs & Hp & Hne)].
  { rewrite update_file_info_skips in Hrun by done.
    injection Hrun as <- _ _ _ _. by left. }
  apply (update_file_info_checked _ _ _ file_path) in Hrun; [| done..].
  destruct Hrun as [st cache1 w1 tr1 Hget
                   | cache1 w1 tr1 e client2 w2 tr2 Hget Hq
                   | cache1 w1 tr1 st client2 w2 tr2 Hget Hq Hst
                   | cache1 w1 tr1 st client2 w2 tr2 cache2 w3 tr3
                       Hget Hq Hst Hset]; try (by left).
  right. apply ClientProps.only_encode_error_escapes in Hq as [-> Henc].
  split; [done |]. split; [done |]. exists file_path.
  split; [done |]. by apply WireProps.request_encodes.
Qed.


End Extension.
End ExtensionProps.

(** ** More scenarios with the test doubles *)

Module MoreScenarios.
Import AeroCloudDaemonClient ClientRuns TraceShapes.

Lemma interp_eta_triple {W A B C} (h : handler W) (p : prog (A * B * C)) w :
  interp h p w =
    (((interp h p w).1.1.1.1, (interp h p w).1.1.1.2, (interp h p w).1.1.2),
     (interp h p w).1.2, (interp h p w).2).
Proof. by destruct (interp h p w) as [[[[? ?] ?] ?] ?]. Qed.

Lemma decode_inverts_encode_witness :
  encode_utf8 MockFiles.accented = Some MockFiles.accented_bytes ∧
  decode_utf8_ignore MockFiles.accented_bytes = MockFiles.accented.
Proof.
  assert (Henc : encode_utf8 MockFiles.accented
                 = Some MockFiles.accented_bytes)
    by (vm_compute; reflexivity).
  split; [exact Henc |].
  exact (CodecProps.decode_inverts_encode _ _ Henc).
Defined.

Lemma clean_path_never_raises_witness :
  Forall (λ c, c < 0x110000 ∧ is_surrogate c = false) Mock.some_file ∧
  ∃ status,
    (interp Mock.daemon (query_status Mock.some_file Mock.disconnected)
       MockFiles.timing_out).1.1.1 = Returned status.
Proof.
  assert (Hclean : Forall (λ c, c < 0x110000 ∧ is_surrogate c = false)
                     Mock.some_file)
    by (apply (bool_decide_unpack _); vm_compute; exact I).
  split; [exact Hclean |].
  exact (WireProps.clean_path_never_raises Mock.daemon Mock.some_file
           Mock.disconnected MockFiles.timing_out _ _ _ _ Hclean
           (interp_eta_pair Mock.daemon _ _)).
Defined.

Lemma surrogate_path_raises_before_sending_witness :
  Exists (λ c, is_surrogate c = true) Mock.unencodable_file ∧
  (interp Mock.daemon (query_status Mock.unencodable_file Mock.connected)
     MockFiles.answering).1.1.1 = Raised UnicodeEncodeError ∧
  (interp Mock.daemon (query_status Mock.unencodable_file Mock.connected)
     MockFiles.answering).2 = [].
Proof.
  assert (Hsur : Exists (λ c, is_surrogate c = true) Mock.unencodable_file).
  { unfold Mock.unencodable_file. apply Exists_app. right.
    apply Exists_cons_hd. reflexivity. }
  split; [exact Hsur |].
  destruct (WireProps.surrogate_path_raises_before_sending Mock.daemon
              Mock.unencodable_file Mock.connected 3 MockFiles.answering
              _ _ _ _ eq_refl Hsur (interp_eta_pair Mock.daemon _ _))
    as (Hr & Htr & _).
  exact (conj Hr Htr).
Defined.

Lemma same_bytes_same_path_witness :
  encode_utf8 (request Mock.some_file) = Some MockFiles.request_bytes ∧
  Mock.some_file = Mock.some_file.
Proof.
  assert (Henc : encode_utf8 (request Mock.some_file)
                 = Some MockFiles.request_bytes)
    by (vm_compute; reflexivity).
  split; [exact Henc |].
  exact (WireProps.same_bytes_same_path _ _ _ Henc Henc).
Defined.

Lemma parsed_status_shape_witness :
  parse_response (decode_utf8_ignore Mock.reply_two_lines)
  = Some (lit "SYNC") ∧
  (colon ∉ lit "SYNC") ∧ no_linebreak (lit "SYNC").
Proof.
  assert (Hparse : parse_response (decode_utf8_ignore Mock.reply_two_lines)
                   = Some (lit "SYNC")) by (vm_compute; reflexivity).
  split; [exact Hparse |].
  destruct (StatusShape.parsed_status_shape _ _ Hparse) as (Hc & Hl & _).
  exact (conj Hc Hl).
Defined.



Lemma connect_result_agrees_with_handle_witness :
  (interp Mock.daemon (_connect Mock.connected) MockFiles.answering).1.1.1
  = true ↔
  _socket
    (interp Mock.daemon (_connect Mock.connected) MockFiles.answering).1.1.2
  ≠ None.
Proof.
  exact (proj1 (ClientMore.connect_result_agrees_with_handle Mock.daemon
                  Mock.connected MockFiles.answering _ _ _ _
                  (interp_eta_pair Mock.daemon _ _))).
Defined.

Lemma attempt_stamps_and_closes_witness :
  (inject_Z RECONNECT_INTERVAL
   <= 2000 - _last_connect_attempt Mock.connected)%Q ∧
  _last_connect_attempt
    (interp Mock.daemon (_connect Mock.connected) MockFiles.timing_out).1.1.2
  = 2000%Q.
Proof.
  assert (Hwin : (inject_Z RECONNECT_INTERVAL
                  <= 2000 - _last_connect_attempt Mock.connected)%Q)
    by (vm_compute; discriminate).
  split; [exact Hwin |].
  refine (proj1 (ClientMore.attempt_stamps_and_closes Mock.daemon
                   Mock.connected MockFiles.timing_out _ _ _ _ 2000%Q
                   (interp_eta_pair Mock.daemon _ _) _ Hwin)).
  vm_compute. reflexivity.
Defined.

Lemma connects_only_to_the_checked_path_witness :
  In (EConnect 7 Mock.socket_path (Ok tt))
    (interp Mock.daemon (query_status Mock.some_file Mock.disconnected)
       MockFiles.answering).2 ∧
  _socket_path Mock.disconnected = Some Mock.socket_path.
Proof.
  assert (Hin :
    In (EConnect 7 Mock.socket_path (Ok tt))
      (interp Mock.daemon (query_status Mock.some_file Mock.disconnected)
         MockFiles.answering).2)
    by (vm_compute; do 4 right; left; reflexivity).
  split; [exact Hin |].
  exact (proj1 (proj2 (ClientMore.connects_only_to_the_checked_path
                         Mock.daemon Mock.some_file Mock.disconnected
                         MockFiles.answering _ _ _ _ _ _ _
                         (interp_eta_pair Mock.daemon _ _) Hin))).
Defined.



Lemma failure_keeps_the_recorded_attempt_witness :
  In (ERecv 3 1024 (Err SocketTimeout))
    (interp Mock.daemon (query_status Mock.some_file Mock.connected)
       MockFiles.timing_out).2 ∧
  (interp Mock.daemon (query_status Mock.some_file Mock.connected)
     MockFiles.timing_out).1.1.2 = with_socket None Mock.connected.
Proof.
  assert (Hin :
    In (ERecv 3 1024 (Err SocketTimeout))
      (interp Mock.daemon (query_status Mock.some_file Mock.connected)
         MockFiles.timing_out).2)
    by (vm_compute; right; left; reflexivity).
  split; [exact Hin |].
  exact (proj1 (ClientMore.failure_keeps_the_recorded_attempt Mock.daemon
                  Mock.some_file Mock.connected 3 MockFiles.timing_out
                  _ _ _ _ eq_refl (interp_eta_pair Mock.daemon _ _)
                  (or_intror (ex_intro _ 1024
                     (ex_intro _ SocketTimeout Hin))))).
Defined.

Lemma reconnect_answers_in_the_same_call_witness :
  In (EConnect 7 Mock.socket_path (Ok tt))
    (interp Mock.daemon (query_status Mock.some_file Mock.disconnected)
       MockFiles.answering).2 ∧
  In (ERecv 7 1024 (Ok Mock.reply_ok))
    (interp Mock.daemon (query_status Mock.some_file Mock.disconnected)
       MockFiles.answering).2 ∧
  (interp Mock.daemon (query_status Mock.some_file Mock.disconnected)
     MockFiles.answering).1.1.1
  = Returned (parse_response (decode_utf8_ignore Mock.reply_ok)) ∧
  _socket
    (interp Mock.daemon (query_status Mock.some_file Mock.disconnected)
       MockFiles.answering).1.1.2 = Some 7.
Proof.
  assert (Hconn :
    In (EConnect 7 Mock.socket_path (Ok tt))
      (interp Mock.daemon (query_status Mock.some_file Mock.disconnected)
         MockFiles.answering).2)
    by (vm_compute; do 4 right; left; reflexivity).
  assert (Hrecv :
    In (ERecv 7 1024 (Ok Mock.reply_ok))
      (interp Mock.daemon (query_status Mock.some_file Mock.disconnected)
         MockFiles.answering).2)
    by (vm_compute; do 6 right; left; reflexivity).
  split; [exact Hconn |]. split; [exact Hrecv |].
  destruct (ClientMore.reconnect_answers_in_the_same_call Mock.daemon
              Mock.some_file Mock.disconnected MockFiles.answering
              _ _ _ _ _ _ _ _ (interp_eta_pair Mock.daemon _ _) Hconn Hrecv)
    as (Hr & Hs & _).
  exact (conj Hr Hs).
Defined.

Lemma socket_path_resolution_witness :
  head
    (interp MockFiles.daemon_with_runtime_dir
       (_find_socket_path MockFiles.blank) (Mock.absent 2000 1)).2
  = Some (EGetEnv (lit "XDG_RUNTIME_DIR") (Some MockFiles.runtime_dir)) ∧
  _socket_path
    (interp MockFiles.daemon_with_runtime_dir
       (_find_socket_path MockFiles.blank) (Mock.absent 2000 1)).1.1
  = Some (lit "/run/user/1000/aerocloud/socket").
Proof.
  assert (Hhead :
    head
      (interp MockFiles.daemon_with_runtime_dir
         (_find_socket_path MockFiles.blank) (Mock.absent 2000 1)).2
    = Some (EGetEnv (lit "XDG_RUNTIME_DIR") (Some MockFiles.runtime_dir)))
    by (vm_compute; reflexivity).
  split; [exact Hhead |].
  destruct (SocketPathProps.socket_path_resolution
              MockFiles.daemon_with_runtime_dir MockFiles.blank
              (Mock.absent 2000 1) _ _ _ _
              (interp_eta MockFiles.daemon_with_runtime_dir _ _) Hhead)
    as (_ & _ & _ & Hpath).
  exact Hpath.
Defined.

Lemma init_resolves_a_socket_path_witness :
  _socket (interp Mock.daemon init (Mock.absent 2000 1)).1.1 = None ∧
  _last_connect_attempt (interp Mock.daemon init (Mock.absent 2000 1)).1.1
  = 0%Q.
Proof.
  destruct (SocketPathProps.init_resolves_a_socket_path Mock.daemon
              (Mock.absent 2000 1) _ _ _ (interp_eta Mock.daemon _ _))
    as (Hs & Hl & _).
  exact (conj Hs Hl).
Defined.

Lemma fallback_paths_differ_by_user_witness :
  interp Mock.daemon (_find_socket_path MockFiles.blank)
    (Mock.absent 2000 1)
  = (with_socket_path (Some (lit "/tmp/aerocloud-1000/socket"))
       MockFiles.blank,
     Mock.absent 2000 1,
     [EGetEnv (lit "XDG_RUNTIME_DIR") None; EGetUid 1000]) ∧
  1000 = 1000.
Proof.
  assert (Hrun :
    interp Mock.daemon (_find_socket_path MockFiles.blank)
      (Mock.absent 2000 1)
    = (with_socket_path (Some (lit "/tmp/aerocloud-1000/socket"))
         MockFiles.blank,
       Mock.absent 2000 1,
       [EGetEnv (lit "XDG_RUNTIME_DIR") None; EGetUid 1000]))
    by (vm_compute; reflexivity).
  split; [exact Hrun |].
  exact (SocketPathProps.fallback_paths_differ_by_user Mock.daemon
           _ _ _ _ _ _ _ _ _ _ _ _ Hrun Hrun eq_refl).
Defined.

Import AeroCloudExtension ExtensionShapes.

Lemma other_files_are_left_alone_witness :
  uri_scheme MockFiles.remote ≠ lit "file" ∧
  (interp Mock.daemon (update_file_info MockFiles.remote MockFiles.extension)
     MockFiles.answering).2 = [] ∧
  (interp Mock.daemon (update_file_info MockFiles.remote MockFiles.extension)
     MockFiles.answering).1.1.2 = MockFiles.remote.
Proof.
  assert (Hs : uri_scheme MockFiles.remote ≠ lit "file") by discriminate.
  split; [exact Hs |].
  destruct (ExtensionProps.other_files_are_left_alone Mock.daemon
              MockFiles.remote MockFiles.extension MockFiles.answering
              _ _ _ _ _ (or_introl Hs) (interp_eta_triple Mock.daemon _ _))
    as (_ & Htr & _ & Hfile & _).
  exact (conj Htr Hfile).
Defined.


Lemma cached_statuses_stay_nonempty_witness :
  statuses_nonempty (_cache MockFiles.extension) ∧
  statuses_nonempty
    (_cache
       (interp Mock.daemon
          (update_file_info MockFiles.report MockFiles.extension)
          MockFiles.answering).1.1.1.2).
Proof.
  assert (Hinv : statuses_nonempty (_cache MockFiles.extension)).
  { intros path status timestamp Hl. simpl in Hl.
    by rewrite lookup_empty in Hl. }
  split; [exact Hinv |].
  exact (ExtensionProps.cached_statuses_stay_nonempty Mock.daemon
           MockFiles.report MockFiles.extension MockFiles.answering
           _ _ _ _ _ Hinv (interp_eta_triple Mock.daemon _ _)).
Defined.

Lemma no_reply_no_new_entry_witness :
  (∀ s n received,
     ¬ In (ERecv s n (Ok received))
         (interp Mock.daemon
            (update_file_info MockFiles.report MockFiles.extension)
            MockFiles.timing_out).2) ∧
  ∀ entry,
    AeroCloudStatusCache._cache
      (_cache
         (interp Mock.daemon
            (update_file_info MockFiles.report MockFiles.extension)
            MockFiles.timing_out).1.1.1.2) !! Mock.some_file = Some entry →
    AeroCloudStatusCache._cache (_cache MockFiles.extension)
      !! Mock.some_file = Some entry.
Proof.
  assert (Hnone : ∀ s n received,
     ¬ In (ERecv s n (Ok received))
         (interp Mock.daemon
            (update_file_info MockFiles.report MockFiles.extension)
            MockFiles.timing_out).2).
  { intros s n received Hin. vm_compute in Hin.
    by destruct Hin as [[=] | [[=] | [[=] | []]]]. }
  split; [exact Hnone |].
  exact (ExtensionProps.no_reply_no_new_entry Mock.daemon
           MockFiles.report MockFiles.extension MockFiles.timing_out
           Mock.some_file _ _ _ _ _ eq_refl
           (interp_eta_triple Mock.daemon _ _) Hnone).
Defined.

Lemma at_most_one_emblem_witness :
  uri_scheme
    (interp Mock.daemon
       (update_file_info MockFiles.report MockFiles.extension)
       MockFiles.answering).1.1.2 = uri_scheme MockFiles.report ∧
  location_path
    (interp Mock.daemon
       (update_file_info MockFiles.report MockFiles.extension)
       MockFiles.answering).1.1.2 = location_path MockFiles.report.
Proof.
  destruct (ExtensionProps.at_most_one_emblem Mock.daemon
              MockFiles.report MockFiles.extension MockFiles.answering
              _ _ _ _ _ (interp_eta_triple Mock.daemon _ _))
    as (Hs & Hp & _).
  exact (conj Hs Hp).
Defined.

Lemma update_answers_complete_witness :
  (interp Mock.daemon
     (update_file_info MockFiles.report MockFiles.extension)
     MockFiles.timing_out).1.1.1.1 = Returned COMPLETE
  ∨ ((interp Mock.daemon
        (update_file_info MockFiles.report MockFiles.extension)
        MockFiles.timing_out).1.1.1.1 = Raised UnicodeEncodeError ∧
     (interp Mock.daemon
        (update_file_info MockFiles.report MockFiles.extension)
        MockFiles.timing_out).1.1.2 = MockFiles.report ∧
     ∃ file_path, location_path MockFiles.report = Some file_path ∧
                  encode_utf8 file_path = None).
Proof.
  exact (ExtensionProps.update_answers_complete Mock.daemon
           MockFiles.report MockFiles.extension MockFiles.timing_out
           _ _ _ _ _ (interp_eta_triple Mock.daemon _ _)).
Defined.


End MoreScenarios.
